(** * Dog DNA parentage analysis: a shallow embedding of
      [scripts/dog_parentage_analysis.py] and the properties of its core
      (genotype parsing, the Mendelian check, the per-trio aggregation). *)

From stdpp Require Import base option list gmap strings pretty sorting.
From Stdlib Require Import Ascii Floats.

Local Open Scope string_scope.
Local Open Scope list_scope.
Local Open Scope nat_scope.

(** ** Python values and exceptions *)

(** A raw spreadsheet cell as pandas hands it over: [None], a float NaN, a
    text cell or an integer cell (other floats are left out).  Characters
    are code points below 256. *)
Inductive RawValue :=
| RNone
| RNaN
| RStr (s : string)
| RInt (z : Z).

(** The exceptions the modelled code can raise. *)
Inductive exn := KeyError | TypeError | ZeroDivisionError | OSError.

Inductive outcome (A : Type) :=
| Return (a : A)
| Raise (e : exn).
Arguments Return {A} a.
Arguments Raise {A} e.

#[global] Instance outcome_ret : MRet outcome := @Return.
#[global] Instance outcome_bind : MBind outcome := λ A B f m,
  match m with
  | Return a => f a
  | Raise e => Raise e
  end.

(** [pd.isna(v)] on a scalar. *)
Definition isna (v : RawValue) : bool :=
  match v with
  | RNone | RNaN => true
  | _ => false
  end.

(** [v == ''] *)
Definition eq_empty (v : RawValue) : bool :=
  match v with
  | RStr "" => true
  | _ => false
  end.

(** [str(v)] *)
Definition py_str (v : RawValue) : string :=
  match v with
  | RNone => "None"
  | RNaN => "nan"
  | RStr s => s
  | RInt z => pretty z
  end.

(** ** Python string methods *)

Module Str.

(** [c.isspace()] for a code point below 256. *)
Definition isspace (c : ascii) : bool :=
  let n := N_of_ascii c in
  ((9 <=? n) && (n <=? 13) || (28 <=? n) && (n <=? 32)
   || (n =? 133) || (n =? 160))%N.

Fixpoint lstrip (s : string) : string :=
  match s with
  | "" => ""
  | String c s' => if isspace c then lstrip s' else s
  end.

Fixpoint rstrip (s : string) : string :=
  match s with
  | "" => ""
  | String c s' =>
      match rstrip s' with
      | "" => if isspace c then "" else String c ""
      | r => String c r
      end
  end.

(** [s.strip()] *)
Definition strip (s : string) : string := rstrip (lstrip s).

(** [c in s] for a one-character string [c]. *)
Fixpoint contains (c : ascii) (s : string) : bool :=
  match s with
  | "" => false
  | String d s' => if Ascii.eqb d c then true else contains c s'
  end.

(** [s.split(sep)] for a one-character separator. *)
Fixpoint split (sep : ascii) (s : string) : list string :=
  match s with
  | "" => [""]
  | String c s' =>
      if Ascii.eqb c sep then "" :: split sep s'
      else match split sep s' with
           | [] => [String c ""]
           | t :: ts => String c t :: ts
           end
  end.

(** Every character of [s] is whitespace. *)
Fixpoint all_space (s : string) : bool :=
  match s with
  | "" => true
  | String c s' => isspace c && all_space s'
  end.

(** Insertion of [x] behind every element that is not greater: the
    step of a stable sort driven by [<], as [sorted] is. *)
Fixpoint insort (x : string) (l : list string) : list string :=
  match l with
  | [] => [x]
  | y :: l' => if String.ltb x y then x :: l else y :: insort x l'
  end.

(** [sorted(l)] on a list of strings. *)
Definition sorted (l : list string) : list string :=
  fold_left (λ acc x, insort x acc) l [].

End Str.

(** ** [parse_genotype] *)

Abbreviation Genotype := (list string).

Definition parse_genotype (genotype_str : RawValue) : option Genotype :=
  if isna genotype_str || eq_empty genotype_str then None
  else
    let genotype_str := Str.strip (py_str genotype_str) in
    let alleles :=
      if Str.contains "/" genotype_str then Str.split "/" genotype_str
      else if Str.contains "|" genotype_str then Str.split "|" genotype_str
      else [genotype_str; genotype_str] in
    Some (Str.sorted (map Str.strip alleles)).

(** ** [check_mendelian_inheritance] *)

(** Truth value of a genotype inside [all([...])]: [None] and the empty
    list are false. *)
Definition truthy (g : option Genotype) : bool :=
  match g with
  | Some (_ :: _) => true
  | _ => false
  end.

(** What the detail text is written from: the literal of the early exit,
    or the possible genotypes in the order in which they enter the [set],
    with the observed one.  In which order the text then lists the members
    of the set depends on the hashes of the process and is left open. *)
Inductive Detail :=
| MissingGenotypeData
| ExpectedGot (possible_offspring : list (list string)) (actual : list string).

Definition check_mendelian_inheritance
    (parent1_genotype parent2_genotype offspring_genotype : option Genotype)
    : bool * Detail :=
  if negb (truthy parent1_genotype && truthy parent2_genotype
           && truthy offspring_genotype)
  then (false, MissingGenotypeData)
  else
    let possible_offspring :=
      flat_map (λ p1_allele,
        map (λ p2_allele, Str.sorted [p1_allele; p2_allele])
            (default [] parent2_genotype))
        (default [] parent1_genotype) in
    let offspring_sorted := Str.sorted (default [] offspring_genotype) in
    let is_consistent := bool_decide (offspring_sorted ∈ possible_offspring) in
    (is_consistent, ExpectedGot possible_offspring offspring_sorted).

(** ** The analyzer *)

(** A marker identifier: an integer or a text cell. *)
Inductive MarkerID :=
| MInt (z : Z)
| MStr (s : string).

#[global] Instance MarkerID_eq_dec : EqDecision MarkerID.
Proof. solve_decision. Defined.

#[global] Instance MarkerID_countable : Countable MarkerID :=
  inj_countable'
    (λ m, match m with MInt z => inl z | MStr s => inr s end)
    (λ x, match x with inl z => MInt z | inr s => MStr s end)
    (λ m, match m with MInt _ | MStr _ => eq_refl end).

(** One loaded profile, as [load_dog_profile] stores it; [data] holds the
    [MarkerID] and [Genotype] columns of the data frame, row by row. *)
Record Profile := {
  data : list (MarkerID * RawValue);
  file : string;
  profile_type : string;
  marker_count : nat
}.

Record MarkerResult := {
  marker : MarkerID;
  mother : Genotype;
  father : Genotype;
  offspring : Genotype;
  consistent : bool;
  details : Detail
}.

(** A stored number: the integer literal, or a double. *)
Inductive Number :=
| NInt (z : Z)
| NFloat (x : float).

(** The [results] dictionary; [consistency_rate] is absent until the loop
    is over. *)
Record Results := {
  total_common_markers : nat;
  testable_markers : nat;
  consistent_markers : nat;
  inconsistent_markers : nat;
  exclusions : list MarkerResult;
  marker_details : list MarkerResult;
  confidence_level : string;
  consistency_rate : option Number
}.

(** The object state; [analysis_results] is [None] for the empty dict. *)
Record DogDNAParentageAnalyzer := {
  profiles : gmap string Profile;
  analysis_results : option Results
}.

(** What the call prints, as far as the properties below need it. *)
Inductive Printed :=
| PMissingDogs (missing_dogs : list string)
| PFewMarkersWarning
| PConclusion (conclusion explanation : string).

(** [d[k]] *)
Definition getitem `{Countable K} {V} (d : gmap K V) (k : K) : outcome V :=
  match d !! k with
  | Some v => Return v
  | None => Raise KeyError
  end.

(** [float(n)] for a count; exact below 2^53, as is every count of rows
    of a table in memory. *)
Definition float_of_nat (n : nat) : float :=
  PrimFloat.of_uint63 (Uint63.of_Z (Z.of_nat n)).

(** [a / b] on integers: the double nearest to the quotient, which for such
    counts is the quotient of the two doubles. *)
Definition truediv (a b : nat) : outcome float :=
  match b with
  | O => Raise ZeroDivisionError
  | S _ => Return (PrimFloat.div (float_of_nat a) (float_of_nat b))
  end.

(** [x < y] between marker identifiers. *)
Definition marker_lt (x y : MarkerID) : outcome bool :=
  match x, y with
  | MInt a, MInt b => Return (a <? b)%Z
  | MStr a, MStr b => Return (String.ltb a b)
  | _, _ => Raise TypeError
  end.

Fixpoint insort_marker (x : MarkerID) (l : list MarkerID)
    : outcome (list MarkerID) :=
  match l with
  | [] => Return [x]
  | y :: l' =>
      b ← marker_lt x y;
      if b : bool then Return (x :: l)
      else l'' ← insort_marker x l'; Return (y :: l'')
  end.

Fixpoint sorted_from (acc l : list MarkerID) : outcome (list MarkerID) :=
  match l with
  | [] => Return acc
  | x :: l' => acc' ← insort_marker x acc; sorted_from acc' l'
  end.

(** [sorted(common_markers)] *)
Definition sorted_markers (common_markers : gset MarkerID)
    : outcome (list MarkerID) :=
  sorted_from [] (elements common_markers).

(** [df.set_index('MarkerID')['Genotype'].to_dict()]: a later row replaces an
    earlier one with the same marker. *)
Definition to_dict (rows : list (MarkerID * RawValue)) : gmap MarkerID RawValue :=
  fold_left (λ d row, <[row.1 := row.2]> d) rows ∅.

(** [set(df['MarkerID'].values)] *)
Definition marker_set (rows : list (MarkerID * RawValue)) : gset MarkerID :=
  list_to_set (map fst rows).

(** [mother_markers & father_markers & offspring_markers] *)
Definition common_markers_of
    (mother_data father_data offspring_data : list (MarkerID * RawValue))
    : gset MarkerID :=
  marker_set mother_data ∩ marker_set father_data ∩ marker_set offspring_data.

(** The body of the loop over the common markers. *)
Definition analyze_marker
    (mother_lookup father_lookup offspring_lookup : gmap MarkerID RawValue)
    (marker_id : MarkerID) (results : Results) : outcome Results :=
  m ← getitem mother_lookup marker_id;
  let mother_geno := parse_genotype m in
  f ← getitem father_lookup marker_id;
  let father_geno := parse_genotype f in
  o ← getitem offspring_lookup marker_id;
  let offspring_geno := parse_genotype o in
  if negb (truthy mother_geno && truthy father_geno && truthy offspring_geno)
  then Return results
  else
    let '(is_consistent, details) :=
      check_mendelian_inheritance mother_geno father_geno offspring_geno in
    let marker_result :=
      {| marker := marker_id;
         mother := default [] mother_geno;
         father := default [] father_geno;
         offspring := default [] offspring_geno;
         consistent := is_consistent;
         details := details |} in
    Return
      {| total_common_markers := total_common_markers results;
         testable_markers := testable_markers results + 1;
         consistent_markers :=
           if is_consistent then consistent_markers results + 1
           else consistent_markers results;
         inconsistent_markers :=
           if is_consistent then inconsistent_markers results
           else inconsistent_markers results + 1;
         exclusions :=
           if is_consistent then exclusions results
           else exclusions results ++ [marker_result];
         marker_details := marker_details results ++ [marker_result];
         confidence_level := confidence_level results;
         consistency_rate := consistency_rate results |}.

(** [for marker_id in markers: ...] *)
Fixpoint analyze_markers
    (mother_lookup father_lookup offspring_lookup : gmap MarkerID RawValue)
    (markers : list MarkerID) (results : Results) : outcome Results :=
  match markers with
  | [] => Return results
  | marker_id :: rest =>
      results' ← analyze_marker mother_lookup father_lookup offspring_lookup
                                marker_id results;
      analyze_markers mother_lookup father_lookup offspring_lookup rest results'
  end.

(** The dictionary the loop starts from. *)
Definition initial_results (n : nat) : Results :=
  {| total_common_markers := n;
     testable_markers := 0;
     consistent_markers := 0;
     inconsistent_markers := 0;
     exclusions := [];
     marker_details := [];
     confidence_level := "Unknown";
     consistency_rate := None |}.

(** The statistics step after the loop. *)
Definition calculate_rate (results : Results) : outcome Number :=
  if 0 <? testable_markers results then
    q ← truediv (consistent_markers results) (testable_markers results);
    Return (NFloat (PrimFloat.mul q (float_of_nat 100)))
  else Return (NInt 0).

(** The confidence ladder. *)
Definition determine_confidence (results : Results) : string :=
  if (inconsistent_markers results =? 0) && (20 <=? consistent_markers results)
  then "Very High"
  else if (inconsistent_markers results <=? 1) && (15 <=? consistent_markers results)
  then "High"
  else if (inconsistent_markers results <=? 2) && (10 <=? consistent_markers results)
  then "Moderate"
  else "Low".

(** The dictionary once the rate and the confidence level are stored. *)
Definition with_statistics (results : Results) (rate : Number) : Results :=
  {| total_common_markers := total_common_markers results;
     testable_markers := testable_markers results;
     consistent_markers := consistent_markers results;
     inconsistent_markers := inconsistent_markers results;
     exclusions := exclusions results;
     marker_details := marker_details results;
     confidence_level := determine_confidence results;
     consistency_rate := Some rate |}.

(** The conclusion ladder, with the explanation that goes with it. *)
Definition determine_conclusion (results : Results) : string * string :=
  if (inconsistent_markers results =? 0) && (15 <=? consistent_markers results)
  then ("PARENTAGE CONFIRMED",
        "All " +:+ pretty (consistent_markers results)
        +:+ " tested markers support the proposed parentage.")
  else if (inconsistent_markers results <=? 2) && (10 <=? consistent_markers results)
  then ("PARENTAGE LIKELY",
        "Only " +:+ pretty (inconsistent_markers results)
        +:+ " exclusions found among " +:+ pretty (testable_markers results)
        +:+ " markers.")
  else if consistent_markers results <? inconsistent_markers results
  then ("PARENTAGE EXCLUDED",
        "Too many exclusions (" +:+ pretty (inconsistent_markers results)
        +:+ ") relative to consistent markers ("
        +:+ pretty (consistent_markers results) +:+ ").")
  else ("INCONCLUSIVE",
        "Results are ambiguous. Additional testing may be needed.").

Definition analyze_parentage
    (mother_name father_name offspring_name : string)
    (self : DogDNAParentageAnalyzer)
    : outcome (option Results * DogDNAParentageAnalyzer * list Printed) :=
  let missing_dogs :=
    filter (λ dog, dog ∉ dom (profiles self))
           [mother_name; father_name; offspring_name] in
  match missing_dogs with
  | _ :: _ => Return (None, self, [PMissingDogs missing_dogs])
  | [] =>
      mother_profile ← getitem (profiles self) mother_name;
      father_profile ← getitem (profiles self) father_name;
      offspring_profile ← getitem (profiles self) offspring_name;
      let mother_data := data mother_profile in
      let father_data := data father_profile in
      let offspring_data := data offspring_profile in
      let common_markers :=
        common_markers_of mother_data father_data offspring_data in
      let warning :=
        if size common_markers <? 10 then [PFewMarkersWarning] else [] in
      let results := initial_results (size common_markers) in
      let mother_lookup := to_dict mother_data in
      let father_lookup := to_dict father_data in
      let offspring_lookup := to_dict offspring_data in
      markers ← sorted_markers common_markers;
      results ← analyze_markers mother_lookup father_lookup offspring_lookup
                                markers results;
      rate ← calculate_rate results;
      let results := with_statistics results rate in
      let '(conclusion, explanation) := determine_conclusion results in
      Return (Some results,
              {| profiles := profiles self; analysis_results := Some results |},
              warning ++ [PConclusion conclusion explanation])
  end.

(** ** [load_dog_profile] *)

(** One row of the sheet, under the three column names. *)
Record SheetRow := {
  MarkerID_cell : RawValue;
  Location_cell : RawValue;
  Genotype_cell : RawValue
}.

(** What the file system and pandas answer inside the [try]: the path does
    not exist; [pd.read_excel] or the naming of the three columns raises;
    or the sheet is read, row by row. *)
Inductive ExcelAnswer :=
| FileMissing
| ReadRaises
| Sheet (rows : list SheetRow).

Inductive LoadPrinted :=
| PFileNotFound (excel_file : string)
| PErrorLoading (dog_name excel_file : string)
| PLoaded (dog_name : string) (markers : nat) (profile_type : string).

(** [df.dropna(subset=['MarkerID', 'Genotype'])] *)
Definition dropna (df : list SheetRow) : list SheetRow :=
  List.filter
    (λ row, negb (isna (MarkerID_cell row)) && negb (isna (Genotype_cell row)))
    df.

(** A marker cell as a dictionary key; an NA cell is none. *)
Definition marker_of_cell (v : RawValue) : option MarkerID :=
  match v with
  | RStr s => Some (MStr s)
  | RInt z => Some (MInt z)
  | RNone | RNaN => None
  end.

(** The [MarkerID] and [Genotype] columns of a frame. *)
Definition frame_columns (df : list SheetRow) : list (MarkerID * RawValue) :=
  omap (λ row, (λ m, (m, Genotype_cell row)) <$> marker_of_cell (MarkerID_cell row))
       df.

Definition load_dog_profile (answer : ExcelAnswer)
    (excel_file dog_name profile_type : string)
    (self : DogDNAParentageAnalyzer)
    : bool * DogDNAParentageAnalyzer * list LoadPrinted :=
  match answer with
  | FileMissing => (false, self, [PFileNotFound excel_file])
  | ReadRaises => (false, self, [PErrorLoading dog_name excel_file])
  | Sheet df =>
      let df := dropna df in
      let df := List.filter (λ row, negb (eq_empty (MarkerID_cell row))) df in
      let df := List.filter (λ row, negb (eq_empty (Genotype_cell row))) df in
      (true,
       {| profiles :=
            <[dog_name := {| data := frame_columns df;
                             file := excel_file;
                             profile_type := profile_type;
                             marker_count := length df |}]> (profiles self);
          analysis_results := analysis_results self |},
       [PLoaded dog_name (length df) profile_type])
  end.

(** ** [export_detailed_report] *)

(** [sep.join(l)] *)
Fixpoint join (sep : string) (l : list string) : string :=
  match l with
  | [] => ""
  | [x] => x
  | x :: l' => x +:+ sep +:+ join sep l'
  end.

(** A cell of the [Value] column of the summary; the rate is kept as the
    number that is then written with one decimal and a percent sign. *)
Inductive SummaryValue :=
| VCount (n : nat)
| VRate (rate : Number)
| VText (s : string).

Record MarkerRow := {
  Marker_ID : MarkerID;
  Mother_Genotype : string;
  Father_Genotype : string;
  Offspring_Genotype : string;
  Consistent : bool;
  Details : Detail
}.

Record ExclusionRow := {
  Excluded_Marker_ID : MarkerID;
  Excluded_Mother_Genotype : string;
  Excluded_Father_Genotype : string;
  Excluded_Offspring_Genotype : string;
  Issue : Detail
}.

(** What the file system and the writer answer: [mkdir], before the [try],
    and inside it the opening of the workbook, each [to_excel] and the
    closing at the end of the [with] go through, or raise. *)
Record WriterAnswer := {
  makes_directory : bool;
  opens : bool;
  writes_summary : bool;
  writes_marker_details : bool;
  writes_exclusions : bool;
  closes : bool
}.

Inductive ExportPrinted :=
| PNoResults
| PExported (output_file : string)
| PErrorExporting.

(** The sheets whose [to_excel] returned; a sheet that was not written, or
    whose writing raised, is [None]. *)
Record Report := {
  Summary : option (list (string * SummaryValue));
  Marker_Details : option (list MarkerRow);
  Exclusions : option (list ExclusionRow)
}.

Definition marker_row (entry : MarkerResult) : MarkerRow :=
  {| Marker_ID := marker entry;
     Mother_Genotype := join "/" (mother entry);
     Father_Genotype := join "/" (father entry);
     Offspring_Genotype := join "/" (offspring entry);
     Consistent := consistent entry;
     Details := details entry |}.

Definition exclusion_row (exclusion : MarkerResult) : ExclusionRow :=
  {| Excluded_Marker_ID := marker exclusion;
     Excluded_Mother_Genotype := join "/" (mother exclusion);
     Excluded_Father_Genotype := join "/" (father exclusion);
     Excluded_Offspring_Genotype := join "/" (offspring exclusion);
     Issue := details exclusion |}.

(** The sheets [export_detailed_report] gets written and what it prints;
    no report at all when it returns at once for want of analysis results.
    An error of [mkdir] escapes the call.  Inside the [try] the first step
    that raises ends it: the sheets after it are not written, and the
    error is printed.  A dictionary without its rate would raise there as
    well, when the summary is put together. *)
Definition export_detailed_report (writer : WriterAnswer) (output_file : string)
    (self : DogDNAParentageAnalyzer)
    : outcome (option Report * list ExportPrinted) :=
  match analysis_results self with
  | None => Return (None, [PNoResults])
  | Some results =>
      if negb (makes_directory writer) then Raise OSError else
      let nothing :=
        {| Summary := None; Marker_Details := None; Exclusions := None |} in
      if negb (opens writer) then Return (Some nothing, [PErrorExporting])
      else
        match consistency_rate results with
        | None => Return (Some nothing, [PErrorExporting])
        | Some rate =>
            let summary :=
              [("Total Common Markers", VCount (total_common_markers results));
               ("Testable Markers", VCount (testable_markers results));
               ("Consistent Markers", VCount (consistent_markers results));
               ("Inconsistent Markers",
                VCount (inconsistent_markers results));
               ("Consistency Rate (%)", VRate rate);
               ("Confidence Level", VText (confidence_level results))] in
            let marker_sheet :=
              match marker_details results with
              | [] => None
              | l => Some (marker_row <$> l)
              end in
            let exclusion_sheet :=
              match exclusions results with
              | [] => None
              | l => Some (exclusion_row <$> l)
              end in
            if negb (writes_summary writer) then
              Return (Some nothing, [PErrorExporting])
            else if bool_decide (is_Some marker_sheet)
                    && negb (writes_marker_details writer) then
              Return (Some {| Summary := Some summary; Marker_Details := None;
                              Exclusions := None |},
                      [PErrorExporting])
            else if bool_decide (is_Some exclusion_sheet)
                    && negb (writes_exclusions writer) then
              Return (Some {| Summary := Some summary;
                              Marker_Details := marker_sheet;
                              Exclusions := None |},
                      [PErrorExporting])
            else
              Return (Some {| Summary := Some summary;
                              Marker_Details := marker_sheet;
                              Exclusions := exclusion_sheet |},
                      if closes writer then [PExported output_file]
                      else [PErrorExporting])
        end
  end.

(** ** Vocabulary of the statements *)

#[global] Instance outcome_fmap : FMap outcome := λ A B f m,
  match m with
  | Return a => Return (f a)
  | Raise e => Raise e
  end.

(** One more common marker counted, nothing else touched. *)
Definition add_common_marker (results : Results) : Results :=
  {| total_common_markers := total_common_markers results + 1;
     testable_markers := testable_markers results;
     consistent_markers := consistent_markers results;
     inconsistent_markers := inconsistent_markers results;
     exclusions := exclusions results;
     marker_details := marker_details results;
     confidence_level := confidence_level results;
     consistency_rate := consistency_rate results |}.

(** What the loop keeps true of the dictionary it fills. *)
Definition tally_invariant (r : Results) : Prop :=
  testable_markers r = consistent_markers r + inconsistent_markers r
  ∧ length (marker_details r) = testable_markers r
  ∧ length (exclusions r) = inconsistent_markers r
  ∧ ∀ e, e ∈ exclusions r → consistent e = false ∧ e ∈ marker_details r.

Definition is_int (m : MarkerID) : bool :=
  match m with
  | MInt _ => true
  | MStr _ => false
  end.

(** All identifiers are integers, or all are strings. *)
Definition comparable (l : list MarkerID) : bool :=
  forallb is_int l || forallb (λ m, negb (is_int m)) l.

(** A profile as [load_dog_profile] would store it for the given rows. *)
Definition loaded (rows : list (MarkerID * RawValue)) : Profile :=
  {| data := rows;
     file := "data/dog.xlsx";
     profile_type := "DNA Page 3";
     marker_count := length rows |}.

(** An analyzer holding the three profiles under their usual names. *)
Definition trio (mother_rows father_rows offspring_rows : list (MarkerID * RawValue))
    : DogDNAParentageAnalyzer :=
  {| profiles :=
       <["Mother" := loaded mother_rows]>
         (<["Father" := loaded father_rows]>
            (<["Offspring" := loaded offspring_rows]> ∅));
     analysis_results := None |}.

(** [n] rows for the markers [start], [start + 1], ..., each with the same
    genotype cell. *)
Definition uniform_rows (start n : nat) (cell : string)
    : list (MarkerID * RawValue) :=
  map (λ i, (MInt (Z.of_nat i), RStr cell)) (seq start n).

(** What a call returned: its dictionary, the state it left and what it
    printed (the untouched initial dictionary, the empty state and nothing
    when there is no such thing). *)
Definition run_result
    (run : outcome (option Results * DogDNAParentageAnalyzer * list Printed))
    : Results :=
  match run with
  | Return (Some res, _, _) => res
  | _ => initial_results 0
  end.

Definition run_state
    (run : outcome (option Results * DogDNAParentageAnalyzer * list Printed))
    : DogDNAParentageAnalyzer :=
  match run with
  | Return (_, self, _) => self
  | Raise _ => {| profiles := ∅; analysis_results := None |}
  end.

Definition run_output
    (run : outcome (option Results * DogDNAParentageAnalyzer * list Printed))
    : list Printed :=
  match run with
  | Return (_, _, out) => out
  | Raise _ => []
  end.

(** The usual call on a trio. *)
Definition analyze_trio (self : DogDNAParentageAnalyzer) :=
  analyze_parentage "Mother" "Father" "Offspring" self.

(** Sample trios: [n] markers, all consistent; 8 consistent and 12
    inconsistent markers; two markers, one of each; one marker whose
    mother cell is NaN; one marker whose mother cell is blank; identifiers
    of both kinds. *)
Definition consistent_trio (n : nat) : DogDNAParentageAnalyzer :=
  trio (uniform_rows 1 n "A/B") (uniform_rows 1 n "A/A")
       (uniform_rows 1 n "A/A").

Definition excluded_trio : DogDNAParentageAnalyzer :=
  trio (uniform_rows 1 20 "A/A") (uniform_rows 1 20 "A/A")
       (uniform_rows 1 8 "A/A" ++ uniform_rows 9 12 "B/B").

Definition small_trio : DogDNAParentageAnalyzer :=
  trio [(MStr "M1", RStr "A/B"); (MStr "M2", RStr "A/A")]
       [(MStr "M1", RStr "A/C"); (MStr "M2", RStr "B/B")]
       [(MStr "M2", RStr "C/C"); (MStr "M1", RStr "C|B")].

Definition untestable_trio : DogDNAParentageAnalyzer :=
  trio [(MStr "M1", RNaN)] [(MStr "M1", RStr "A/A")]
       [(MStr "M1", RStr "B/B")].

Definition one_third_trio : DogDNAParentageAnalyzer :=
  trio (uniform_rows 1 3 "A/A") (uniform_rows 1 3 "A/A")
       (uniform_rows 1 1 "A/A" ++ uniform_rows 2 2 "B/B").

Definition whitespace_trio : DogDNAParentageAnalyzer :=
  trio [(MStr "M1", RStr "   ")] [(MStr "M1", RStr "A/A")]
       [(MStr "M1", RStr "A/A")].

Definition mixed_trio : DogDNAParentageAnalyzer :=
  trio [(MInt 1, RStr "A/A"); (MStr "M1", RStr "A/B")]
       [(MInt 1, RStr "A/A"); (MStr "M1", RStr "A/B")]
       [(MInt 1, RStr "A/A"); (MStr "M1", RStr "A/B")].

(** [DogDNAParentageAnalyzer()] *)
Definition new_analyzer : DogDNAParentageAnalyzer :=
  {| profiles := ∅; analysis_results := None |}.

(** Whether the loop tests a marker: its three cells are there and parse. *)
Definition testable (ml fl ol : gmap MarkerID RawValue) (m : MarkerID) : bool :=
  match ml !! m, fl !! m, ol !! m with
  | Some a, Some b, Some c =>
      truthy (parse_genotype a) && truthy (parse_genotype b)
      && truthy (parse_genotype c)
  | _, _, _ => false
  end.

(** [x < y] holds between two marker identifiers. *)
Definition marker_before (x y : MarkerID) : Prop :=
  marker_lt x y = Return true.

(** What an entry of [marker_details] records: the three parsed cells of
    its marker and what the check says of them. *)
Definition entry_of_marker (ml fl ol : gmap MarkerID RawValue)
    (e : MarkerResult) : Prop :=
  ∃ a b c,
    ml !! marker e = Some a ∧ fl !! marker e = Some b
    ∧ ol !! marker e = Some c
    ∧ parse_genotype a = Some (mother e)
    ∧ parse_genotype b = Some (father e)
    ∧ parse_genotype c = Some (offspring e)
    ∧ check_mendelian_inheritance
        (Some (mother e)) (Some (father e)) (Some (offspring e))
      = (consistent e, details e).

(** The stored cells of a profile are cells [parse_genotype] accepts, under
    markers other than ['']. *)
Definition clean_rows (rows : list (MarkerID * RawValue)) : Prop :=
  ∀ row, row ∈ rows → is_Some (parse_genotype row.2) ∧ row.1 ≠ MStr "".

(** A sheet with the given marker and genotype cells, the middle column
    blank. *)
Definition sheet_rows (cells : list (RawValue * RawValue)) : list SheetRow :=
  map (λ c, {| MarkerID_cell := c.1; Location_cell := RNaN;
               Genotype_cell := c.2 |}) cells.

(** The analyzer after loading such a sheet under a name. *)
Definition load_sample (dog_name : string) (cells : list (RawValue * RawValue))
    (self : DogDNAParentageAnalyzer) : DogDNAParentageAnalyzer :=
  (load_dog_profile (Sheet (sheet_rows cells)) "data/dog.xlsx" dog_name
                    "DNA Page 3" self).1.2.

(** Three sample sheets loaded one after the other, as [main] does. *)
Definition mother_cells : list (RawValue * RawValue) :=
  [(RStr "M1", RStr "A/B"); (RStr "M2", RNaN); (RStr "M3", RStr "C")].

Definition father_cells : list (RawValue * RawValue) :=
  [(RStr "M1", RStr "B|B"); (RStr "M2", RStr "A/A"); (RStr "M3", RStr "C/D")].

Definition offspring_cells : list (RawValue * RawValue) :=
  [(RStr "", RStr "A/A"); (RStr "M1", RStr "A/A"); (RStr "M3", RStr "D/C")].

Definition loaded_sample_trio : DogDNAParentageAnalyzer :=
  load_sample "Offspring" offspring_cells
    (load_sample "Father" father_cells
       (load_sample "Mother" mother_cells new_analyzer)).

(** An entry, and a dictionary, with the two parents exchanged: the two
    genotypes change places and the detail is that of the check with the
    parents the other way round. *)
Definition swap_parents (e : MarkerResult) : MarkerResult :=
  {| marker := marker e;
     mother := father e;
     father := mother e;
     offspring := offspring e;
     consistent := consistent e;
     details :=
       (check_mendelian_inheritance
          (Some (father e)) (Some (mother e)) (Some (offspring e))).2 |}.

(** Two details name the same possible genotypes and the same observed
    one, whatever the order in which the possible ones are listed. *)
Definition same_detail (d d' : Detail) : Prop :=
  match d, d' with
  | MissingGenotypeData, MissingGenotypeData => True
  | ExpectedGot l a, ExpectedGot l' a' => (∀ g, g ∈ l ↔ g ∈ l') ∧ a = a'
  | _, _ => False
  end.

(** A file system and a writer that raise nowhere. *)
Definition writer_ok : WriterAnswer :=
  {| makes_directory := true; opens := true; writes_summary := true;
     writes_marker_details := true; writes_exclusions := true;
     closes := true |}.

(** The report of the small trio, as a writer that raises nowhere gets it
    written. *)
Definition small_report : Report :=
  match export_detailed_report writer_ok "truth/report.xlsx"
          (run_state (analyze_trio small_trio)) with
  | Return (Some report, _) => report
  | _ => {| Summary := None; Marker_Details := None; Exclusions := None |}
  end.

Definition swap_parents_results (r : Results) : Results :=
  {| total_common_markers := total_common_markers r;
     testable_markers := testable_markers r;
     consistent_markers := consistent_markers r;
     inconsistent_markers := inconsistent_markers r;
     exclusions := swap_parents <$> exclusions r;
     marker_details := swap_parents <$> marker_details r;
     confidence_level := confidence_level r;
     consistency_rate := consistency_rate r |}.

(** * Properties *)

(** ** Facts about the string methods *)

Module StrFacts.
Import Str.

Lemma append_nil (t : string) : "" +:+ t = t.
Proof. reflexivity. Qed.

Lemma append_cons c (s t : string) : String c s +:+ t = String c (s +:+ t).
Proof. reflexivity. Qed.

Lemma rstrip_cons c s :
  rstrip (String c s) =
  match rstrip s with
  | "" => if isspace c then "" else String c ""
  | r => String c r
  end.
Proof. reflexivity. Qed.

Lemma rstrip_cons_nonspace c s :
  isspace c = false → rstrip (String c s) = String c (rstrip s).
Proof. intros Hc. rewrite rstrip_cons, Hc. by destruct (rstrip s). Qed.

Lemma lstrip_idemp s : lstrip (lstrip s) = lstrip s.
Proof.
  induction s as [|c s IH]; simpl; [done|].
  destruct (isspace c) eqn:Hc; [done|]. simpl. by rewrite Hc.
Qed.

Lemma rstrip_idemp s : rstrip (rstrip s) = rstrip s.
Proof.
  induction s as [|c s IH]; [done|].
  rewrite rstrip_cons. destruct (rstrip s) as [|d r] eqn:Hr.
  - destruct (isspace c) eqn:Hc; [done|]. by rewrite rstrip_cons_nonspace.
  - rewrite rstrip_cons, IH. done.
Qed.

Lemma lstrip_rstrip s : lstrip (rstrip s) = rstrip (lstrip s).
Proof.
  induction s as [|c s IH]; [done|].
  rewrite rstrip_cons. simpl lstrip at 2.
  destruct (isspace c) eqn:Hc.
  - rewrite <- IH. destruct (rstrip s) as [|d r]; [done|].
    simpl. by rewrite Hc.
  - rewrite rstrip_cons.
    destruct (rstrip s) as [|d r]; rewrite ?Hc; simpl; by rewrite Hc.
Qed.

Lemma strip_idemp s : strip (strip s) = strip s.
Proof.
  unfold strip. by rewrite lstrip_rstrip, lstrip_idemp, rstrip_idemp.
Qed.

Lemma strip_lstrip s : strip (lstrip s) = strip s.
Proof. unfold strip. by rewrite lstrip_idemp. Qed.

Lemma strip_rstrip s : strip (rstrip s) = strip s.
Proof. unfold strip. by rewrite lstrip_rstrip, rstrip_idemp. Qed.

Lemma all_space_lstrip s : all_space s = true → lstrip s = "".
Proof.
  induction s as [|c s IH]; simpl; [done|].
  intros [Hc Hs]%andb_true_iff. rewrite Hc. auto.
Qed.

Lemma all_space_strip s : all_space s = true → strip s = "".
Proof. intros Hs. unfold strip. by rewrite all_space_lstrip. Qed.

Lemma eqb_space_nonspace c d :
  isspace d = true → isspace c = false → Ascii.eqb d c = false.
Proof.
  intros Hd Hc. destruct (Ascii.eqb_spec d c) as [->|]; [congruence|done].
Qed.

Lemma contains_lstrip c s :
  isspace c = false → contains c (lstrip s) = contains c s.
Proof.
  intros Hc. induction s as [|d s IH]; simpl; [done|].
  destruct (isspace d) eqn:Hd; [|done].
  by rewrite (eqb_space_nonspace c d).
Qed.

Lemma contains_rstrip c s :
  isspace c = false → contains c (rstrip s) = contains c s.
Proof.
  intros Hc. induction s as [|d s IH]; [done|].
  rewrite rstrip_cons. simpl contains at 2. rewrite <- IH.
  destruct (rstrip s) as [|e r]; [|done].
  destruct (isspace d) eqn:Hd; simpl.
  - by rewrite (eqb_space_nonspace c d).
  - done.
Qed.

Lemma contains_strip c s :
  isspace c = false → contains c (strip s) = contains c s.
Proof.
  intros Hc. unfold strip. by rewrite contains_rstrip, contains_lstrip.
Qed.

Lemma lstrip_append_sep c a b :
  isspace c = false → lstrip (a +:+ String c b) = lstrip a +:+ String c b.
Proof.
  intros Hc. induction a as [|d a IH].
  - rewrite !append_nil. simpl. by rewrite Hc.
  - rewrite append_cons. simpl. destruct (isspace d); [done|].
    by rewrite append_cons.
Qed.

Lemma rstrip_append_sep c a b :
  isspace c = false → rstrip (a +:+ String c b) = a +:+ String c (rstrip b).
Proof.
  intros Hc. induction a as [|d a IH].
  - rewrite !append_nil. by apply rstrip_cons_nonspace.
  - rewrite !append_cons, rstrip_cons, IH. by destruct a.
Qed.

Lemma strip_append_sep c a b :
  isspace c = false →
  strip (a +:+ String c b) = lstrip a +:+ String c (rstrip b).
Proof.
  intros Hc. unfold strip. by rewrite lstrip_append_sep, rstrip_append_sep.
Qed.

Lemma contains_append_sep c a b : contains c (a +:+ String c b) = true.
Proof.
  induction a as [|d a IH].
  - rewrite append_nil. simpl. by rewrite Ascii.eqb_refl.
  - rewrite append_cons. simpl. by destruct (Ascii.eqb d c).
Qed.

Lemma contains_append_other c d a b :
  Ascii.eqb d c = false → contains c a = false → contains c b = false →
  contains c (a +:+ String d b) = false.
Proof.
  intros Hdc Ha Hb. induction a as [|e a IH].
  - rewrite append_nil. simpl. by rewrite Hdc.
  - rewrite append_cons. simpl in *. destruct (Ascii.eqb e c); [done|auto].
Qed.

Lemma split_no_sep c s : contains c s = false → split c s = [s].
Proof.
  induction s as [|d s IH]; simpl; [done|].
  destruct (Ascii.eqb d c); [done|]. intros Hs. by rewrite IH.
Qed.

Lemma split_append_sep c a b :
  contains c a = false → split c (a +:+ String c b) = a :: split c b.
Proof.
  induction a as [|d a IH].
  - intros _. rewrite append_nil. simpl. by rewrite Ascii.eqb_refl.
  - rewrite append_cons. simpl. destruct (Ascii.eqb d c); [done|].
    intros Ha. by rewrite IH.
Qed.

Lemma sorted_pair x y :
  sorted [x; y] = if String.ltb y x then [y; x] else [x; y].
Proof. reflexivity. Qed.

Lemma sorted_same x : sorted [x; x] = [x; x].
Proof. rewrite sorted_pair. by destruct (String.ltb x x). Qed.

Lemma sorted_swap x y : sorted [x; y] = sorted [y; x].
Proof.
  rewrite !sorted_pair. unfold String.ltb.
  rewrite (String.compare_antisym x y).
  destruct (String.compare y x) eqn:Hc; simpl; [|done..].
  by apply String.compare_eq_iff in Hc as ->.
Qed.

End StrFacts.

(** ** [parse_genotype] *)

Section ParseGenotype.
Import Str StrFacts.

Lemma isspace_slash : isspace "/" = false.
Proof. reflexivity. Qed.

Lemma isspace_pipe : isspace "|" = false.
Proof. reflexivity. Qed.

(** A text cell other than [''] passes the guard. *)
Lemma parse_genotype_str s :
  s ≠ "" →
  parse_genotype (RStr s) =
  Some (sorted (map strip
    (if contains "/" (strip s) then split "/" (strip s)
     else if contains "|" (strip s) then split "|" (strip s)
     else [strip s; strip s]))).
Proof. intros Hs. by destruct s. Qed.

Lemma parse_genotype_missing v :
  isna v = true ∨ v = RStr "" → parse_genotype v = None.
Proof. intros [Hv| ->]; [|done]. unfold parse_genotype. by rewrite Hv. Qed.

Lemma append_sep_nonempty a c b : a +:+ String c b ≠ "".
Proof. by destruct a. Qed.

(** The two tokens of a joined string, whatever the separator. *)
Lemma parse_genotype_slash a b :
  contains "/" a = false → contains "/" b = false →
  parse_genotype (RStr (a +:+ String "/" b)) = Some (sorted [strip a; strip b]).
Proof.
  intros Ha Hb.
  rewrite parse_genotype_str by apply append_sep_nonempty.
  rewrite strip_append_sep by done.
  rewrite contains_append_sep, split_append_sep
    by (by rewrite contains_lstrip).
  rewrite split_no_sep by (by rewrite contains_rstrip).
  simpl. by rewrite strip_lstrip, strip_rstrip.
Qed.

Lemma parse_genotype_pipe a b :
  contains "/" a = false → contains "/" b = false →
  contains "|" a = false → contains "|" b = false →
  parse_genotype (RStr (a +:+ String "|" b)) = Some (sorted [strip a; strip b]).
Proof.
  intros Ha Hb Ha' Hb'.
  rewrite parse_genotype_str by apply append_sep_nonempty.
  rewrite strip_append_sep by done.
  rewrite contains_append_other;
    [|done|by rewrite contains_lstrip|by rewrite contains_rstrip].
  rewrite contains_append_sep, split_append_sep
    by (by rewrite contains_lstrip).
  rewrite split_no_sep by (by rewrite contains_rstrip).
  simpl. by rewrite strip_lstrip, strip_rstrip.
Qed.

(** A missing value ([None], NaN) and the empty string parse to [None]. *)
Lemma parse_genotype_null_inputs :
  parse_genotype RNone = None ∧ parse_genotype RNaN = None
  ∧ parse_genotype (RStr "") = None.
Proof. done. Qed.

(** C5: every non-empty string made of whitespace only passes the guard,
    is trimmed to [''] afterwards, and parses to the genotype [['', '']]
    instead of [None]. *)
Theorem parse_genotype_whitespace_only s :
  s ≠ "" → all_space s = true → parse_genotype (RStr s) = Some [""; ""].
Proof.
  intros Hs Hw. rewrite parse_genotype_str by done.
  by rewrite all_space_strip.
Qed.

Lemma parse_genotype_whitespace_only_witness :
  parse_genotype (RStr "   ") = Some [""; ""].
Proof. apply parse_genotype_whitespace_only; [done|reflexivity]. Defined.

(** C6: for tokens [a] and [b] holding no separator, the four strings
    [a/b], [b/a], [a|b] and [b|a] all parse to the same genotype, the two
    trimmed tokens in sorted order. *)
Theorem parse_genotype_canonical a b :
  contains "/" a = false → contains "|" a = false →
  contains "/" b = false → contains "|" b = false →
  let canonical := Some (sorted [strip a; strip b]) in
  parse_genotype (RStr (a +:+ "/" +:+ b)) = canonical
  ∧ parse_genotype (RStr (b +:+ "/" +:+ a)) = canonical
  ∧ parse_genotype (RStr (a +:+ "|" +:+ b)) = canonical
  ∧ parse_genotype (RStr (b +:+ "|" +:+ a)) = canonical.
Proof.
  intros Ha Ha' Hb Hb' canonical. unfold canonical.
  rewrite (sorted_swap (strip a) (strip b)) at 2 4.
  repeat split;
    first [by apply parse_genotype_slash | by apply parse_genotype_pipe].
Qed.

Lemma parse_genotype_canonical_witness :
  parse_genotype (RStr "142/ 138") = Some ["138"; "142"]
  ∧ parse_genotype (RStr " 138/142") = Some ["138"; "142"]
  ∧ parse_genotype (RStr "142| 138") = Some ["138"; "142"]
  ∧ parse_genotype (RStr " 138|142") = Some ["138"; "142"].
Proof.
  apply (parse_genotype_canonical "142" " 138"); reflexivity.
Defined.

(** C7: a string that is neither empty nor all whitespace is split at
    ['/'] when it holds one, else at ['|'] when it holds one, and else
    parses to the homozygous pair of the trimmed string. *)
Theorem parse_genotype_homozygous_fallback s :
  s ≠ "" → all_space s = false →
  (contains "/" s = false → contains "|" s = false →
     parse_genotype (RStr s) = Some [strip s; strip s])
  ∧ (contains "/" s = true →
     parse_genotype (RStr s) = Some (sorted (map strip (split "/" (strip s)))))
  ∧ (contains "/" s = false → contains "|" s = true →
     parse_genotype (RStr s) = Some (sorted (map strip (split "|" (strip s))))).
Proof.
  intros Hs _. rewrite parse_genotype_str by done.
  rewrite !contains_strip by done.
  split; [|split].
  - intros -> ->. simpl. by rewrite strip_idemp, sorted_same.
  - by intros ->.
  - by intros -> ->.
Qed.

Lemma parse_genotype_homozygous_fallback_witness :
  parse_genotype (RStr "142") = Some ["142"; "142"].
Proof.
  by apply (parse_genotype_homozygous_fallback "142").
Defined.

(** ['/'] is looked for first: a ['|'] before it stays inside a token. *)
Example parse_genotype_slash_first :
  parse_genotype (RStr "A|B/C") = Some ["A|B"; "C"].
Proof. reflexivity. Qed.

Example parse_genotype_int_cell : parse_genotype (RInt 142) = Some ["142"; "142"].
Proof. vm_compute. reflexivity. Qed.

Example parse_genotype_three_tokens :
  parse_genotype (RStr "C/A/B") = Some ["A"; "B"; "C"].
Proof. reflexivity. Qed.

End ParseGenotype.

(** ** [check_mendelian_inheritance] *)

Section Mendelian.
Import Str.

Lemma check_nonempty (p1 p2 off : Genotype) :
  p1 ≠ [] → p2 ≠ [] → off ≠ [] →
  (check_mendelian_inheritance (Some p1) (Some p2) (Some off)).1 =
  bool_decide (sorted off ∈
    flat_map (λ a, map (λ b, sorted [a; b]) p2) p1).
Proof. by destruct p1, p2, off. Qed.

Lemma possible_offspring_spec (p1 p2 g : Genotype) :
  g ∈ flat_map (λ a, map (λ b, sorted [a; b]) p2) p1
  ↔ ∃ a b, a ∈ p1 ∧ b ∈ p2 ∧ g = sorted [a; b].
Proof.
  rewrite list_elem_of_In, in_flat_map. split.
  - intros (a & Ha & Hg). apply in_map_iff in Hg as (b & <- & Hb).
    exists a, b. by rewrite !list_elem_of_In.
  - intros (a & b & Ha & Hb & ->). exists a.
    rewrite in_map_iff, <- list_elem_of_In. split; [done|].
    exists b. by rewrite <- list_elem_of_In.
Qed.

Lemma check_consistent_iff (p1 p2 off : Genotype) :
  p1 ≠ [] → p2 ≠ [] → off ≠ [] →
  (check_mendelian_inheritance (Some p1) (Some p2) (Some off)).1 = true
  ↔ ∃ a b, a ∈ p1 ∧ b ∈ p2 ∧ sorted off = sorted [a; b].
Proof.
  intros H1 H2 H3. rewrite check_nonempty by done.
  by rewrite bool_decide_eq_true, possible_offspring_spec.
Qed.

(** C1: for two-allele parents [[a1, a2]] and [[b1, b2]] and a two-allele
    offspring, the verdict is true exactly when the sorted offspring pair
    is [sorted([a, b])] for an allele [a] of the first parent and an
    allele [b] of the second. *)
Theorem check_mendelian_inheritance_consistent (a1 a2 b1 b2 o1 o2 : string) :
  (check_mendelian_inheritance
     (Some [a1; a2]) (Some [b1; b2]) (Some [o1; o2])).1 = true
  ↔ ∃ a b, a ∈ [a1; a2] ∧ b ∈ [b1; b2] ∧ sorted [o1; o2] = sorted [a; b].
Proof.
  rewrite check_nonempty by done.
  rewrite bool_decide_eq_true.
  apply possible_offspring_spec.
Qed.

(** Mother [A/B], father [A/C], offspring [B/C]. *)
Example check_scenario_A :
  (check_mendelian_inheritance
     (parse_genotype (RStr "A/B")) (parse_genotype (RStr "A/C"))
     (parse_genotype (RStr "B/C"))).1 = true.
Proof. reflexivity. Qed.

(** Mother [A/A], father [B/B], offspring [C/C]. *)
Example check_scenario_B :
  check_mendelian_inheritance
    (parse_genotype (RStr "A/A")) (parse_genotype (RStr "B/B"))
    (parse_genotype (RStr "C/C"))
  = (false,
     ExpectedGot [["A"; "B"]; ["A"; "B"]; ["A"; "B"]; ["A"; "B"]] ["C"; "C"]).
Proof. vm_compute. reflexivity. Qed.

Example check_missing :
  check_mendelian_inheritance None (Some ["A"; "A"]) (Some ["A"; "A"])
  = (false, MissingGenotypeData).
Proof. reflexivity. Qed.

End Mendelian.

(** ** The outcome monad and the dictionaries *)

Section Outcome.

Lemma bind_Return {A B} (m : outcome A) (f : A → outcome B) b :
  m ≫= f = Return b → ∃ a, m = Return a ∧ f a = Return b.
Proof. destruct m as [a|e]; [eauto|done]. Qed.

Lemma bind_Raise {A B} (m : outcome A) (f : A → outcome B) e :
  m ≫= f = Raise e → m = Raise e ∨ ∃ a, m = Return a ∧ f a = Raise e.
Proof. destruct m as [a|e']; [eauto|]. intros [= ->]. by left. Qed.

Lemma getitem_Some `{Countable K} {V} (d : gmap K V) k v :
  d !! k = Some v → getitem d k = Return v.
Proof. unfold getitem. by intros ->. Qed.

Lemma getitem_Return `{Countable K} {V} (d : gmap K V) k v :
  getitem d k = Return v → d !! k = Some v.
Proof. unfold getitem. destruct (d !! k); naive_solver. Qed.

Lemma getitem_Raise `{Countable K} {V} (d : gmap K V) k e :
  getitem d k = Raise e → e = KeyError ∧ d !! k = None.
Proof. unfold getitem. destruct (d !! k); naive_solver. Qed.

End Outcome.

Ltac bind_inv H :=
  let a := fresh "a" in
  let Ha := fresh "H" a in
  apply bind_Return in H as (a & Ha & H).

(** ** The loop over the common markers *)

Section Loop.
Context (ml fl ol : gmap MarkerID RawValue).

Lemma truthy_None_l g1 g2 g3 :
  g1 = None ∨ g2 = None ∨ g3 = None →
  negb (truthy g1 && truthy g2 && truthy g3) = true.
Proof.
  intros [->|[->| ->]]; simpl; [done| |];
    destruct (truthy g1); simpl; [|done| |done];
    [done|by destruct (truthy g2)].
Qed.

(** A marker with an unparsable genotype leaves the dictionary as it is. *)
Lemma analyze_marker_skip m rm rf ro r :
  ml !! m = Some rm → fl !! m = Some rf → ol !! m = Some ro →
  parse_genotype rm = None ∨ parse_genotype rf = None
    ∨ parse_genotype ro = None →
  analyze_marker ml fl ol m r = Return r.
Proof.
  intros Hm Hf Ho Hp. unfold analyze_marker.
  rewrite (getitem_Some _ _ _ Hm), (getitem_Some _ _ _ Hf),
    (getitem_Some _ _ _ Ho). simpl.
  by rewrite truthy_None_l.
Qed.

Lemma analyze_marker_Raise m r e :
  analyze_marker ml fl ol m r = Raise e →
  e = KeyError ∧ (ml !! m = None ∨ fl !! m = None ∨ ol !! m = None).
Proof.
  unfold analyze_marker. intros H.
  destruct (bind_Raise _ _ _ H) as [H1|(rm & _ & H1)];
    [destruct (getitem_Raise _ _ _ H1); auto|].
  destruct (bind_Raise _ _ _ H1) as [H2|(rf & _ & H2)];
    [destruct (getitem_Raise _ _ _ H2); auto|].
  destruct (bind_Raise _ _ _ H2) as [H3|(ro & _ & H3)];
    [destruct (getitem_Raise _ _ _ H3); auto|].
  destruct (negb _); [done|]. by destruct (check_mendelian_inheritance _ _ _).
Qed.

Lemma analyze_marker_defined m r :
  is_Some (ml !! m) → is_Some (fl !! m) → is_Some (ol !! m) →
  ∃ r', analyze_marker ml fl ol m r = Return r'.
Proof.
  intros Hm Hf Ho.
  destruct (analyze_marker ml fl ol m r) as [r'|e] eqn:H; [eauto|].
  apply analyze_marker_Raise in H as [_ [H|[H|H]]];
    rewrite H in *; by apply is_Some_None in Hm || apply is_Some_None in Hf
                       || apply is_Some_None in Ho.
Qed.

Lemma analyze_markers_app ms1 ms2 r :
  analyze_markers ml fl ol (ms1 ++ ms2) r =
  analyze_markers ml fl ol ms1 r ≫= analyze_markers ml fl ol ms2.
Proof.
  revert r. induction ms1 as [|m ms1 IH]; intros r; simpl; [done|].
  destruct (analyze_marker ml fl ol m r) as [r'|e]; simpl; [apply IH|done].
Qed.

Lemma analyze_markers_Raise ms r e :
  analyze_markers ml fl ol ms r = Raise e →
  e = KeyError
  ∧ ∃ m, m ∈ ms ∧ (ml !! m = None ∨ fl !! m = None ∨ ol !! m = None).
Proof.
  revert r. induction ms as [|m ms IH]; intros r; simpl; [done|].
  intros H. destruct (bind_Raise _ _ _ H) as [H1|(r' & _ & H1)].
  - apply analyze_marker_Raise in H1 as [-> H1]. split; [done|].
    exists m. split; [left|done].
  - apply IH in H1 as [-> (m' & Hm' & H1)]. split; [done|].
    exists m'. split; [by right|done].
Qed.

Lemma analyze_markers_defined ms r :
  (∀ m, m ∈ ms → is_Some (ml !! m) ∧ is_Some (fl !! m) ∧ is_Some (ol !! m)) →
  ∃ r', analyze_markers ml fl ol ms r = Return r'.
Proof.
  intros Hms.
  destruct (analyze_markers ml fl ol ms r) as [r'|e] eqn:H; [eauto|].
  apply analyze_markers_Raise in H as [_ (m & Hm & H)].
  destruct (Hms m Hm) as (H1 & H2 & H3).
  destruct H as [H|[H|H]]; rewrite H in *; by eapply is_Some_None in H1
    || eapply is_Some_None in H2 || eapply is_Some_None in H3.
Qed.

(** The count of common markers is carried along untouched. *)
Lemma analyze_marker_add_common m r :
  analyze_marker ml fl ol m (add_common_marker r) =
  add_common_marker <$> analyze_marker ml fl ol m r.
Proof.
  unfold analyze_marker.
  destruct (getitem ml m) as [rm|]; simpl; [|done].
  destruct (getitem fl m) as [rf|]; simpl; [|done].
  destruct (getitem ol m) as [ro|]; simpl; [|done].
  destruct (negb _); [done|].
  by destruct (check_mendelian_inheritance _ _ _) as [[] d].
Qed.

Lemma analyze_markers_add_common ms r :
  analyze_markers ml fl ol ms (add_common_marker r) =
  add_common_marker <$> analyze_markers ml fl ol ms r.
Proof.
  revert r. induction ms as [|m ms IH]; intros r; simpl; [done|].
  rewrite analyze_marker_add_common.
  destruct (analyze_marker ml fl ol m r) as [r'|e]; simpl; [apply IH|done].
Qed.

Lemma analyze_markers_total ms r r' :
  analyze_markers ml fl ol ms r = Return r' →
  total_common_markers r' = total_common_markers r.
Proof.
  revert r. induction ms as [|m ms IH]; intros r H; simpl in H.
  - by injection H as <-.
  - bind_inv H. rewrite (IH _ H). unfold analyze_marker in Ha.
    bind_inv Ha. bind_inv Ha. bind_inv Ha.
    destruct (negb _); [by injection Ha as <-|].
    destruct (check_mendelian_inheritance _ _ _) as [c d].
    by injection Ha as <-.
Qed.

Lemma initial_results_S n :
  initial_results (S n) = add_common_marker (initial_results n).
Proof. unfold initial_results, add_common_marker. simpl. f_equal. lia. Qed.

Lemma analyze_marker_invariant m r r' :
  tally_invariant r → analyze_marker ml fl ol m r = Return r' →
  tally_invariant r'.
Proof.
  intros (Ht & Hd & He & Hx) H. unfold analyze_marker in H.
  bind_inv H. bind_inv H. bind_inv H.
  destruct (negb _); [by injection H as <-|].
  destruct (check_mendelian_inheritance _ _ _) as [[] d];
    injection H as <-; unfold tally_invariant; simpl;
    rewrite ?length_app; simpl; split_and!; try lia.
  - intros e [? ?]%Hx. split; [done|]. apply elem_of_app. by left.
  - intros e [[? ?]%Hx| ->%list_elem_of_singleton]%elem_of_app.
    + split; [done|]. apply elem_of_app. by left.
    + split; [done|]. apply elem_of_app. right. by apply list_elem_of_singleton.
Qed.

Lemma analyze_markers_invariant ms r r' :
  tally_invariant r → analyze_markers ml fl ol ms r = Return r' →
  tally_invariant r'.
Proof.
  revert r. induction ms as [|m ms IH]; intros r Hr H; simpl in H.
  - by injection H as <-.
  - bind_inv H. eauto using analyze_marker_invariant.
Qed.

Lemma initial_results_invariant n : tally_invariant (initial_results n).
Proof.
  unfold tally_invariant. simpl. split_and!; try done.
  intros e He. by apply elem_of_nil in He.
Qed.

(** C4: a common marker at which one of the three cells does not parse
    leaves the running dictionary untouched, and the whole pass gives
    what it gives without that marker, but for one more common marker
    counted in [total_common_markers]: nothing is added to the testable,
    consistent and inconsistent counts, to [marker_details] or to
    [exclusions], whatever the other two cells hold. *)
Theorem unparsable_marker_skipped (before after : list MarkerID) m rm rf ro :
  ml !! m = Some rm → fl !! m = Some rf → ol !! m = Some ro →
  parse_genotype rm = None ∨ parse_genotype rf = None
    ∨ parse_genotype ro = None →
  (∀ r, analyze_marker ml fl ol m r = Return r)
  ∧ analyze_markers ml fl ol (before ++ m :: after)
      (initial_results (length (before ++ m :: after)))
    = add_common_marker <$>
      analyze_markers ml fl ol (before ++ after)
        (initial_results (length (before ++ after))).
Proof.
  intros Hm Hf Ho Hp.
  assert (Hskip : ∀ r, analyze_marker ml fl ol m r = Return r)
    by eauto using analyze_marker_skip.
  split; [done|].
  replace (length (before ++ m :: after))
    with (S (length (before ++ after)))
    by (rewrite !length_app; simpl; lia).
  rewrite initial_results_S, analyze_markers_add_common. f_equal.
  rewrite !analyze_markers_app.
  destruct (analyze_markers ml fl ol before _) as [r|e]; simpl; [|done].
  by rewrite Hskip.
Qed.

End Loop.

Lemma unparsable_marker_skipped_witness :
  analyze_markers
    (to_dict [(MInt 1, RNaN); (MInt 2, RStr "A/A")])
    (to_dict [(MInt 1, RStr "A/B"); (MInt 2, RStr "A/A")])
    (to_dict [(MInt 1, RStr "B/B"); (MInt 2, RStr "A/A")])
    [MInt 1; MInt 2] (initial_results 2)
  = add_common_marker <$>
    analyze_markers
      (to_dict [(MInt 1, RNaN); (MInt 2, RStr "A/A")])
      (to_dict [(MInt 1, RStr "A/B"); (MInt 2, RStr "A/A")])
      (to_dict [(MInt 1, RStr "B/B"); (MInt 2, RStr "A/A")])
      [MInt 2] (initial_results 1).
Proof.
  apply (unparsable_marker_skipped _ _ _ [] [MInt 2] (MInt 1)
           RNaN (RStr "A/B") (RStr "B/B"));
    [by vm_compute..|by left].
Defined.

(** ** Sorting the common markers *)

Section Sorting.

Lemma marker_lt_same x y :
  is_int x = is_int y → ∃ b, marker_lt x y = Return b.
Proof. destruct x, y; simpl; by eauto. Qed.

Lemma marker_lt_mixed x y :
  is_int x ≠ is_int y → marker_lt x y = Raise TypeError.
Proof. by destruct x, y. Qed.

Lemma insort_marker_same k x l :
  is_int x = k → Forall (λ y, is_int y = k) l →
  ∃ l', insort_marker x l = Return l' ∧ l' ≡ₚ x :: l.
Proof.
  intros Hx. induction 1 as [|y l Hy Hl IH]; simpl; [by eauto|].
  destruct (marker_lt_same x y) as [[] ->]; [congruence|by eauto|].
  destruct IH as (l' & -> & Hperm). simpl. eexists. split; [done|].
  rewrite Hperm. apply perm_swap.
Qed.

Lemma sorted_from_same k acc l :
  Forall (λ y, is_int y = k) acc → Forall (λ y, is_int y = k) l →
  ∃ l', sorted_from acc l = Return l' ∧ l' ≡ₚ acc ++ l.
Proof.
  intros Hacc Hl. revert acc Hacc.
  induction Hl as [|x l Hx Hl IH]; intros acc Hacc; simpl.
  - exists acc. by rewrite app_nil_r.
  - destruct (insort_marker_same k x acc Hx Hacc) as (acc' & -> & Hperm).
    simpl. destruct (IH acc') as (l' & -> & Hperm').
    + rewrite Forall_forall. intros y Hy. rewrite Hperm in Hy.
      apply elem_of_cons in Hy as [->|Hy]; [done|].
      by eapply Forall_forall in Hacc.
    + exists l'. split; [done|].
      rewrite Hperm', Hperm. simpl. apply Permutation_middle.
Qed.

Lemma sorted_from_mixed k acc l :
  acc ≠ [] → Forall (λ y, is_int y = k) acc →
  ¬ Forall (λ y, is_int y = k) l →
  sorted_from acc l = Raise TypeError.
Proof.
  revert acc. induction l as [|x l IH]; intros acc Hne Hacc Hl; simpl.
  - by destruct Hl.
  - destruct (decide (is_int x = k)) as [Hx|Hx].
    + destruct (insort_marker_same k x acc Hx Hacc) as (acc' & -> & Hperm).
      simpl. apply IH.
      * intros ->. by apply Permutation_nil_cons in Hperm.
      * rewrite Forall_forall. intros y Hy. rewrite Hperm in Hy.
        apply elem_of_cons in Hy as [->|Hy]; [done|].
        by eapply Forall_forall in Hacc.
      * intros Hl'. apply Hl. by constructor.
    + destruct acc as [|y acc]; [done|]. simpl.
      apply Forall_cons in Hacc as [Hy _].
      rewrite marker_lt_mixed by congruence. done.
Qed.

Lemma comparable_cons x l :
  comparable (x :: l) = true ↔ Forall (λ y, is_int y = is_int x) l.
Proof.
  unfold comparable. simpl. rewrite Forall_forall.
  destruct (is_int x); simpl; rewrite ?orb_false_r, forallb_forall.
  - split; intros H y Hy; apply H; by apply list_elem_of_In.
  - split; intros H y Hy.
    + apply negb_true_iff, H. by apply list_elem_of_In.
    + apply negb_true_iff, H. by apply list_elem_of_In.
Qed.

(** [sorted] returns a rearrangement of a list whose elements compare,
    and raises [TypeError] on a list mixing integers and strings. *)
Lemma sorted_from_nil_spec l :
  (comparable l = true → ∃ l', sorted_from [] l = Return l' ∧ l' ≡ₚ l)
  ∧ (comparable l = false → sorted_from [] l = Raise TypeError).
Proof.
  destruct l as [|x l]; [split; [by eauto|done]|]. simpl. split.
  - intros Hl%comparable_cons.
    apply (sorted_from_same (is_int x)); [by repeat constructor|done].
  - intros Hl. apply (sorted_from_mixed (is_int x));
      [done|by repeat constructor|].
    intros Hl'%comparable_cons. congruence.
Qed.

Lemma sorted_markers_Return (S : gset MarkerID) :
  comparable (elements S) = true →
  ∃ l, sorted_markers S = Return l ∧ ∀ m, m ∈ l ↔ m ∈ S.
Proof.
  intros H. destruct (proj1 (sorted_from_nil_spec _) H) as (l & Hl & Hperm).
  exists l. split; [done|]. intros m. by rewrite Hperm, elem_of_elements.
Qed.

Lemma sorted_markers_Raise (S : gset MarkerID) :
  comparable (elements S) = false → sorted_markers S = Raise TypeError.
Proof. apply sorted_from_nil_spec. Qed.

Lemma sorted_markers_inv (S : gset MarkerID) l :
  sorted_markers S = Return l →
  comparable (elements S) = true ∧ ∀ m, m ∈ l ↔ m ∈ S.
Proof.
  intros H. destruct (comparable (elements S)) eqn:Hc.
  - destruct (sorted_markers_Return S Hc) as (l' & Hl' & Hin).
    rewrite Hl' in H. by injection H as <-.
  - by rewrite sorted_markers_Raise in H.
Qed.

(** The sorted list has one entry per common marker. *)
Lemma sorted_markers_length (S : gset MarkerID) l :
  sorted_markers S = Return l → length l = size S.
Proof.
  intros H. destruct (comparable (elements S)) eqn:Hc.
  - destruct (proj1 (sorted_from_nil_spec _) Hc) as (l' & Hl' & Hperm).
    unfold sorted_markers in H. rewrite Hl' in H. injection H as <-.
    by rewrite Hperm.
  - by rewrite sorted_markers_Raise in H.
Qed.

End Sorting.

(** ** The lookup dictionaries *)

Section Lookup.

Lemma fold_insert_lookup (rows : list (MarkerID * RawValue))
    (d : gmap MarkerID RawValue) m :
  m ∈ map fst rows ∨ is_Some (d !! m) →
  is_Some (fold_left (λ d row, <[row.1 := row.2]> d) rows d !! m).
Proof.
  revert d. induction rows as [|[k v] rows IH]; intros d; simpl.
  - intros [H|H]; [by apply elem_of_nil in H|done].
  - intros H. apply IH.
    destruct (decide (k = m)) as [->|Hne].
    + right. by rewrite lookup_insert_eq.
    + rewrite lookup_insert_ne by done.
      destruct H as [H|H]; [|by right].
      apply elem_of_cons in H as [->|H]; [done|by left].
Qed.

Lemma to_dict_lookup rows m :
  m ∈ marker_set rows → is_Some (to_dict rows !! m).
Proof.
  unfold marker_set, to_dict. rewrite elem_of_list_to_set.
  intros H. apply fold_insert_lookup. by left.
Qed.

Lemma common_markers_lookup md fd od m :
  m ∈ common_markers_of md fd od →
  is_Some (to_dict md !! m) ∧ is_Some (to_dict fd !! m)
  ∧ is_Some (to_dict od !! m).
Proof.
  unfold common_markers_of. rewrite !elem_of_intersection.
  intros [[??]?]. split_and!; by apply to_dict_lookup.
Qed.

End Lookup.

(** ** [analyze_parentage] *)

Section Analyze.

Lemma missing_dogs_nil (P : gmap string Profile) m f o :
  filter (λ dog, dog ∉ dom P) [m; f; o] = []
  ↔ is_Some (P !! m) ∧ is_Some (P !! f) ∧ is_Some (P !! o).
Proof.
  rewrite <- !elem_of_dom, !filter_cons, filter_nil.
  repeat case_decide;
    (split; [try done|try (intros (?&?&?); done)]);
    intros _; split_and!; by apply dec_stable.
Qed.

(** The early exit: a name without a profile. *)
Lemma analyze_parentage_missing m f o self :
  ¬ (is_Some (profiles self !! m) ∧ is_Some (profiles self !! f)
     ∧ is_Some (profiles self !! o)) →
  ∃ missing_dogs,
    missing_dogs = filter (λ dog, dog ∉ dom (profiles self)) [m; f; o]
    ∧ missing_dogs ≠ []
    ∧ analyze_parentage m f o self
      = Return (None, self, [PMissingDogs missing_dogs]).
Proof.
  intros H. eexists. split; [done|]. rewrite missing_dogs_nil.
  split; [done|]. unfold analyze_parentage.
  destruct (filter _ _) eqn:Hf; [|done].
  by apply missing_dogs_nil in Hf.
Qed.

(** Past the early exit. *)
Lemma analyze_parentage_loaded m f o self mp fp op :
  profiles self !! m = Some mp → profiles self !! f = Some fp →
  profiles self !! o = Some op →
  analyze_parentage m f o self =
  let common_markers := common_markers_of (data mp) (data fp) (data op) in
  markers ← sorted_markers common_markers;
  results ← analyze_markers (to_dict (data mp)) (to_dict (data fp))
              (to_dict (data op)) markers
              (initial_results (size common_markers));
  rate ← calculate_rate results;
  let results := with_statistics results rate in
  Return (Some results,
          {| profiles := profiles self; analysis_results := Some results |},
          (if size common_markers <? 10 then [PFewMarkersWarning] else [])
          ++ [PConclusion (determine_conclusion results).1
                          (determine_conclusion results).2]).
Proof.
  intros Hm Hf Ho. unfold analyze_parentage.
  rewrite (proj2 (missing_dogs_nil _ m f o)) by (by rewrite Hm, Hf, Ho).
  rewrite (getitem_Some _ _ _ Hm), (getitem_Some _ _ _ Hf),
    (getitem_Some _ _ _ Ho).
  cbn [mbind outcome_bind]. cbv zeta.
  destruct (sorted_markers _) as [markers|]; [|done]. cbn [mbind outcome_bind].
  destruct (analyze_markers _ _ _ _ _) as [r|]; [|done]. cbn [mbind outcome_bind].
  destruct (calculate_rate r) as [rate|]; [|done]. cbn [mbind outcome_bind].
  by destruct (determine_conclusion _).
Qed.

Lemma calculate_rate_Return r :
  calculate_rate r =
  Return (if testable_markers r =? 0 then NInt 0
          else NFloat (PrimFloat.mul
                         (PrimFloat.div (float_of_nat (consistent_markers r))
                                        (float_of_nat (testable_markers r)))
                         (float_of_nat 100))).
Proof.
  unfold calculate_rate, truediv. by destruct (testable_markers r).
Qed.

(** A returned dictionary comes from the pass over the sorted common
    markers of three loaded profiles. *)
Lemma analyze_parentage_inv m f o self res st' out :
  analyze_parentage m f o self = Return (Some res, st', out) →
  ∃ mp fp op markers r rate,
    profiles self !! m = Some mp ∧ profiles self !! f = Some fp
    ∧ profiles self !! o = Some op
    ∧ sorted_markers (common_markers_of (data mp) (data fp) (data op))
      = Return markers
    ∧ analyze_markers (to_dict (data mp)) (to_dict (data fp))
        (to_dict (data op)) markers
        (initial_results
           (size (common_markers_of (data mp) (data fp) (data op))))
      = Return r
    ∧ calculate_rate r = Return rate
    ∧ res = with_statistics r rate
    ∧ st' = {| profiles := profiles self; analysis_results := Some res |}
    ∧ ∃ warning,
        out = warning ++ [PConclusion (determine_conclusion res).1
                                      (determine_conclusion res).2].
Proof.
  intros H.
  destruct (decide (is_Some (profiles self !! m) ∧ is_Some (profiles self !! f)
                    ∧ is_Some (profiles self !! o)))
    as [([mp Hm] & [fp Hf] & [op Ho])|Hmiss].
  - rewrite (analyze_parentage_loaded _ _ _ _ _ _ _ Hm Hf Ho) in H.
    cbv zeta in H. bind_inv H. bind_inv H. bind_inv H.
    injection H as <- <- <-.
    exists mp, fp, op. do 3 eexists. split_and!; try done. by eexists.
  - destruct (analyze_parentage_missing m f o self Hmiss) as (? & _ & _ & H').
    congruence.
Qed.

Lemma determine_confidence_cases r :
  determine_confidence r =
  if decide (inconsistent_markers r = 0 ∧ 20 ≤ consistent_markers r)
  then "Very High"
  else if decide (inconsistent_markers r ≤ 1 ∧ 15 ≤ consistent_markers r)
  then "High"
  else if decide (inconsistent_markers r ≤ 2 ∧ 10 ≤ consistent_markers r)
  then "Moderate"
  else "Low".
Proof.
  unfold determine_confidence.
  destruct (Nat.eqb_spec (inconsistent_markers r) 0),
    (Nat.leb_spec 20 (consistent_markers r)),
    (Nat.leb_spec (inconsistent_markers r) 1),
    (Nat.leb_spec 15 (consistent_markers r)),
    (Nat.leb_spec (inconsistent_markers r) 2),
    (Nat.leb_spec 10 (consistent_markers r));
    simpl; repeat case_decide; first [done | lia].
Qed.

Lemma determine_conclusion_cases r :
  (determine_conclusion r).1 =
  if decide (inconsistent_markers r = 0 ∧ 15 ≤ consistent_markers r)
  then "PARENTAGE CONFIRMED"
  else if decide (inconsistent_markers r ≤ 2 ∧ 10 ≤ consistent_markers r)
  then "PARENTAGE LIKELY"
  else if decide (consistent_markers r < inconsistent_markers r)
  then "PARENTAGE EXCLUDED"
  else "INCONCLUSIVE".
Proof.
  unfold determine_conclusion.
  destruct (Nat.eqb_spec (inconsistent_markers r) 0),
    (Nat.leb_spec 15 (consistent_markers r)),
    (Nat.leb_spec (inconsistent_markers r) 2),
    (Nat.leb_spec 10 (consistent_markers r)),
    (Nat.ltb_spec (consistent_markers r) (inconsistent_markers r));
    simpl; repeat case_decide; first [done | lia].
Qed.

(** Every common marker is counted in [total_common_markers], and is
    visited once by the loop. *)
Lemma analyze_parentage_total m f o self res st' out :
  analyze_parentage m f o self = Return (Some res, st', out) →
  ∃ mp fp op markers,
    profiles self !! m = Some mp ∧ profiles self !! f = Some fp
    ∧ profiles self !! o = Some op
    ∧ sorted_markers (common_markers_of (data mp) (data fp) (data op))
      = Return markers
    ∧ total_common_markers res = length markers
    ∧ total_common_markers res
      = size (common_markers_of (data mp) (data fp) (data op)).
Proof.
  intros H.
  apply analyze_parentage_inv in H
    as (mp & fp & op & markers & r & rate & Hm & Hf & Ho & Hs & Hr & _ & ->
        & _).
  exists mp, fp, op, markers. split_and!; try done.
  - apply analyze_markers_total in Hr. simpl in *.
    by rewrite (sorted_markers_length _ _ Hs).
  - apply analyze_markers_total in Hr. by simpl in *.
Qed.

(** With the three profiles loaded the call returns a dictionary and
    stores it, unless the common identifiers mix integers and strings:
    then [sorted] raises [TypeError]. *)
Lemma analyze_parentage_outcome m f o self mp fp op :
  profiles self !! m = Some mp → profiles self !! f = Some fp →
  profiles self !! o = Some op →
  if comparable (elements (common_markers_of (data mp) (data fp) (data op)))
  then ∃ res out,
         analyze_parentage m f o self
         = Return (Some res,
                   {| profiles := profiles self;
                      analysis_results := Some res |}, out)
  else analyze_parentage m f o self = Raise TypeError.
Proof.
  intros Hm Hf Ho.
  rewrite (analyze_parentage_loaded _ _ _ _ _ _ _ Hm Hf Ho). cbv zeta.
  destruct (comparable _) eqn:Hc.
  - destruct (sorted_markers_Return _ Hc) as (l & -> & Hin).
    cbn [mbind outcome_bind].
    destruct (analyze_markers_defined (to_dict (data mp)) (to_dict (data fp))
                (to_dict (data op)) l
                (initial_results
                   (size (common_markers_of (data mp) (data fp) (data op)))))
      as [r ->].
    { intros k Hk%Hin. by apply common_markers_lookup. }
    cbn [mbind outcome_bind]. rewrite calculate_rate_Return.
    cbn [mbind outcome_bind]. by eauto.
  - by rewrite sorted_markers_Raise.
Qed.

(** The only exception that escapes the call is that [TypeError]. *)
Lemma analyze_parentage_Raise m f o self e :
  analyze_parentage m f o self = Raise e →
  e = TypeError
  ∧ ∃ mp fp op,
      profiles self !! m = Some mp ∧ profiles self !! f = Some fp
      ∧ profiles self !! o = Some op
      ∧ comparable
          (elements (common_markers_of (data mp) (data fp) (data op)))
        = false.
Proof.
  intros H.
  destruct (decide (is_Some (profiles self !! m) ∧ is_Some (profiles self !! f)
                    ∧ is_Some (profiles self !! o)))
    as [([mp Hm] & [fp Hf] & [op Ho])|Hmiss].
  - pose proof (analyze_parentage_outcome _ _ _ _ _ _ _ Hm Hf Ho) as Hout.
    destruct (comparable _) eqn:Hc.
    + destruct Hout as (res & out & Hout). congruence.
    + rewrite Hout in H. injection H as <-. split; [done|].
      by exists mp, fp, op.
  - destruct (analyze_parentage_missing m f o self Hmiss) as (? & _ & _ & H').
    congruence.
Qed.

(** The null result is returned for a missing profile and for nothing
    else; the object is handed back as it was, and the one thing printed
    is the list of the missing names. *)
Lemma analyze_parentage_None m f o self st' out :
  analyze_parentage m f o self = Return (None, st', out)
  ↔ ¬ (is_Some (profiles self !! m) ∧ is_Some (profiles self !! f)
       ∧ is_Some (profiles self !! o))
    ∧ st' = self
    ∧ out = [PMissingDogs
               (filter (λ dog, dog ∉ dom (profiles self)) [m; f; o])].
Proof.
  split.
  - intros H.
    destruct (decide (is_Some (profiles self !! m)
                      ∧ is_Some (profiles self !! f)
                      ∧ is_Some (profiles self !! o)))
      as [([mp Hm] & [fp Hf] & [op Ho])|Hmiss].
    + pose proof (analyze_parentage_outcome _ _ _ _ _ _ _ Hm Hf Ho) as Hout.
      destruct (comparable _); [|congruence].
      destruct Hout as (res & out' & Hout). congruence.
    + destruct (analyze_parentage_missing m f o self Hmiss)
        as (? & -> & _ & H').
      rewrite H' in H. by injection H as <- <-.
  - intros (Hmiss & -> & ->).
    by destruct (analyze_parentage_missing m f o self Hmiss)
      as (? & -> & _ & H').
Qed.

End Analyze.

(** ** The claims on [analyze_parentage] *)

Section Claims.

(** C10: a returned dictionary has [testable = consistent + inconsistent],
    one entry of [marker_details] per testable marker, one entry of
    [exclusions] per inconsistent marker, each of them inconsistent and
    present in [marker_details], and one of the four confidence levels,
    never the initial ["Unknown"]. *)
Theorem analyze_parentage_invariants m f o self res st' out :
  analyze_parentage m f o self = Return (Some res, st', out) →
  testable_markers res = consistent_markers res + inconsistent_markers res
  ∧ length (marker_details res) = testable_markers res
  ∧ length (exclusions res) = inconsistent_markers res
  ∧ (∀ e, e ∈ exclusions res → consistent e = false ∧ e ∈ marker_details res)
  ∧ confidence_level res ∈ ["Very High"; "High"; "Moderate"; "Low"]
  ∧ confidence_level res ≠ "Unknown".
Proof.
  intros H.
  apply analyze_parentage_inv in H
    as (mp & fp & op & markers & r & rate & _ & _ & _ & _ & Hr & _ & -> & _).
  apply analyze_markers_invariant in Hr as (Ht & Hd & He & Hx);
    [|apply initial_results_invariant].
  simpl. split_and!; try done.
  - rewrite determine_confidence_cases.
    repeat case_decide; repeat constructor.
  - rewrite determine_confidence_cases. by repeat case_decide.
Qed.

Lemma analyze_parentage_invariants_witness :
  analyze_trio small_trio
  = Return (Some (run_result (analyze_trio small_trio)),
            run_state (analyze_trio small_trio),
            run_output (analyze_trio small_trio))
  ∧ testable_markers (run_result (analyze_trio small_trio)) = 2
  ∧ length (exclusions (run_result (analyze_trio small_trio))) = 1
  ∧ confidence_level (run_result (analyze_trio small_trio)) ≠ "Unknown".
Proof.
  assert (H : analyze_trio small_trio
              = Return (Some (run_result (analyze_trio small_trio)),
                        run_state (analyze_trio small_trio),
                        run_output (analyze_trio small_trio)))
    by (vm_compute; reflexivity).
  split; [exact H|].
  destruct (analyze_parentage_invariants _ _ _ _ _ _ _ H)
    as (Ht & _ & He & _ & _ & Hu).
  rewrite Ht, He. split_and!; [by vm_compute|by vm_compute|exact Hu].
Defined.

(** A blank cell is taken for a genotype: the marker is tested and
    counted against the parents. *)
Example whitespace_cell_excludes :
  testable_markers (run_result (analyze_trio whitespace_trio)) = 1
  ∧ inconsistent_markers (run_result (analyze_trio whitespace_trio)) = 1
  ∧ mother <$> exclusions (run_result (analyze_trio whitespace_trio))
    = [[""; ""]].
Proof. split_and!; by vm_compute. Qed.

(** A NaN cell is not: the marker is counted as common and nothing else. *)
Example missing_cell_skipped :
  total_common_markers (run_result (analyze_trio untestable_trio)) = 1
  ∧ testable_markers (run_result (analyze_trio untestable_trio)) = 0
  ∧ marker_details (run_result (analyze_trio untestable_trio)) = [].
Proof. split_and!; by vm_compute. Qed.

(** C3: the confidence level of a returned dictionary is fixed by the
    first rule that applies: no inconsistent marker and at least 20
    consistent ones, ["Very High"]; else at most 1 and at least 15,
    ["High"]; else at most 2 and at least 10, ["Moderate"]; else
    ["Low"]. *)
Theorem confidence_level_precedence m f o self res st' out :
  analyze_parentage m f o self = Return (Some res, st', out) →
  confidence_level res =
  if decide (inconsistent_markers res = 0 ∧ 20 ≤ consistent_markers res)
  then "Very High"
  else if decide (inconsistent_markers res ≤ 1 ∧ 15 ≤ consistent_markers res)
  then "High"
  else if decide (inconsistent_markers res ≤ 2 ∧ 10 ≤ consistent_markers res)
  then "Moderate"
  else "Low".
Proof.
  intros H.
  apply analyze_parentage_inv in H
    as (mp & fp & op & markers & r & rate & _ & _ & _ & _ & _ & _ & -> & _).
  unfold with_statistics.
  cbn [confidence_level inconsistent_markers consistent_markers].
  apply determine_confidence_cases.
Qed.

Lemma confidence_level_precedence_witness :
  analyze_trio small_trio
  = Return (Some (run_result (analyze_trio small_trio)),
            run_state (analyze_trio small_trio),
            run_output (analyze_trio small_trio))
  ∧ confidence_level (run_result (analyze_trio small_trio)) = "Low".
Proof.
  assert (H : analyze_trio small_trio
              = Return (Some (run_result (analyze_trio small_trio)),
                        run_state (analyze_trio small_trio),
                        run_output (analyze_trio small_trio)))
    by (vm_compute; reflexivity).
  split; [exact H|].
  rewrite (confidence_level_precedence _ _ _ _ _ _ _ H).
  by vm_compute.
Defined.

(** 20 consistent markers and no inconsistent one give ["Very High"], 19
    give ["High"]. *)
Example confidence_level_boundary :
  (consistent_markers (run_result (analyze_trio (consistent_trio 20))) = 20
   ∧ inconsistent_markers (run_result (analyze_trio (consistent_trio 20))) = 0
   ∧ confidence_level (run_result (analyze_trio (consistent_trio 20)))
     = "Very High")
  ∧ (consistent_markers (run_result (analyze_trio (consistent_trio 19))) = 19
     ∧ inconsistent_markers (run_result (analyze_trio (consistent_trio 19))) = 0
     ∧ confidence_level (run_result (analyze_trio (consistent_trio 19)))
       = "High").
Proof. split_and!; by vm_compute. Qed.

(** C2, as the code has it: the conclusion is printed last, and is fixed
    by the first rule that applies: no inconsistent marker and at least 15
    consistent ones, ["PARENTAGE CONFIRMED"]; else at most 2 and at least
    10, ["PARENTAGE LIKELY"]; else more inconsistent than consistent
    markers, ["PARENTAGE EXCLUDED"]; else ["INCONCLUSIVE"]. *)
Theorem conclusion_precedence m f o self res st' out :
  analyze_parentage m f o self = Return (Some res, st', out) →
  ∃ warning explanation,
    out = warning ++ [PConclusion
      (if decide (inconsistent_markers res = 0 ∧ 15 ≤ consistent_markers res)
       then "PARENTAGE CONFIRMED"
       else if decide (inconsistent_markers res ≤ 2
                       ∧ 10 ≤ consistent_markers res)
       then "PARENTAGE LIKELY"
       else if decide (consistent_markers res < inconsistent_markers res)
       then "PARENTAGE EXCLUDED"
       else "INCONCLUSIVE")
      explanation].
Proof.
  intros H.
  apply analyze_parentage_inv in H
    as (mp & fp & op & markers & r & rate & _ & _ & _ & _ & _ & _ & _ & _
        & warning & ->).
  exists warning, (determine_conclusion res).2.
  by rewrite determine_conclusion_cases.
Qed.

Lemma conclusion_precedence_witness :
  analyze_trio small_trio
  = Return (Some (run_result (analyze_trio small_trio)),
            run_state (analyze_trio small_trio),
            run_output (analyze_trio small_trio))
  ∧ ∃ explanation,
      run_output (analyze_trio small_trio)
      = [PFewMarkersWarning; PConclusion "INCONCLUSIVE" explanation].
Proof.
  assert (H : analyze_trio small_trio
              = Return (Some (run_result (analyze_trio small_trio)),
                        run_state (analyze_trio small_trio),
                        run_output (analyze_trio small_trio)))
    by (vm_compute; reflexivity).
  split; [exact H|].
  destruct (conclusion_precedence _ _ _ _ _ _ _ H) as (w & e & Hout).
  eexists. by vm_compute.
Defined.

(** With 18 consistent markers and no inconsistent one the call prints
    ["PARENTAGE CONFIRMED"]; the label ["Parentage Confirmed"] is not
    what it prints. *)
Lemma conclusion_label_counterexample :
  consistent_markers (run_result (analyze_trio (consistent_trio 18))) = 18
  ∧ inconsistent_markers (run_result (analyze_trio (consistent_trio 18))) = 0
  ∧ run_output (analyze_trio (consistent_trio 18))
    = [PConclusion "PARENTAGE CONFIRMED"
         "All 18 tested markers support the proposed parentage."]
  ∧ ∀ explanation,
      PConclusion "Parentage Confirmed" explanation
      ∉ run_output (analyze_trio (consistent_trio 18)).
Proof.
  assert (Hout : run_output (analyze_trio (consistent_trio 18))
            = [PConclusion "PARENTAGE CONFIRMED"
                 "All 18 tested markers support the proposed parentage."])
    by (by vm_compute).
  split_and!; [by vm_compute|by vm_compute|exact Hout|].
  intros e. rewrite Hout, list_elem_of_singleton. discriminate.
Qed.

(** 8 consistent and 12 inconsistent markers: ["PARENTAGE EXCLUDED"]. *)
Example conclusion_excluded :
  consistent_markers (run_result (analyze_trio excluded_trio)) = 8
  ∧ inconsistent_markers (run_result (analyze_trio excluded_trio)) = 12
  ∧ run_output (analyze_trio excluded_trio)
    = [PConclusion "PARENTAGE EXCLUDED"
         "Too many exclusions (12) relative to consistent markers (8)."].
Proof. split_and!; by vm_compute. Qed.

(** C8: the call never raises [ZeroDivisionError]; the rate it stores is
    the integer 0 when no marker was testable, and otherwise the double
    [consistent_markers / testable_markers * 100], the division and the
    product being those of the doubles. *)
Theorem consistency_rate_guarded m f o self :
  analyze_parentage m f o self ≠ Raise ZeroDivisionError
  ∧ ∀ res st' out,
      analyze_parentage m f o self = Return (Some res, st', out) →
      (testable_markers res = 0 → consistency_rate res = Some (NInt 0))
      ∧ (0 < testable_markers res →
         consistency_rate res
         = Some (NFloat
                   (PrimFloat.mul
                      (PrimFloat.div (float_of_nat (consistent_markers res))
                                     (float_of_nat (testable_markers res)))
                      (float_of_nat 100)))).
Proof.
  split.
  - by intros [? _]%analyze_parentage_Raise.
  - intros res st' out H.
    apply analyze_parentage_inv in H
      as (mp & fp & op & markers & r & rate & _ & _ & _ & _ & _ & Hrate
          & -> & _).
    rewrite calculate_rate_Return in Hrate. injection Hrate as <-.
    unfold with_statistics. cbn [testable_markers consistency_rate
      consistent_markers].
    split; intros Ht.
    + by rewrite Ht.
    + destruct (Nat.eqb_spec (testable_markers r) 0); [lia|done].
Qed.

Lemma consistency_rate_guarded_witness :
  consistency_rate (run_result (analyze_trio untestable_trio))
  = Some (NInt 0)
  ∧ consistency_rate (run_result (analyze_trio small_trio))
    = Some (NFloat 50%float).
Proof.
  split.
  - apply (proj2 (consistency_rate_guarded "Mother" "Father" "Offspring" untestable_trio) _
             (run_state (analyze_trio untestable_trio))
             (run_output (analyze_trio untestable_trio)));
      by vm_compute.
  - refine (eq_trans
      (proj2 (proj2 (consistency_rate_guarded "Mother" "Father" "Offspring" small_trio) _
                (run_state (analyze_trio small_trio))
                (run_output (analyze_trio small_trio)) _) _) _);
      [by vm_compute|vm_compute; lia|by vm_compute].
Defined.

(** One consistent marker out of three: the stored rate is the double
    33.33333333333333, which is neither the fraction 100/3 nor the double
    nearest to it, 33.333333333333336. *)
Example consistency_rate_one_third :
  consistent_markers (run_result (analyze_trio one_third_trio)) = 1
  ∧ testable_markers (run_result (analyze_trio one_third_trio)) = 3
  ∧ consistency_rate (run_result (analyze_trio one_third_trio))
    = Some (NFloat 0x1.0aaaaaaaaaaaap+5%float)
  ∧ PrimFloat.div (float_of_nat 100) (float_of_nat 3)
    = 0x1.0aaaaaaaaaaabp+5%float.
Proof. split_and!; by vm_compute. Qed.

(** C9, on the failing input: the three profiles are loaded, their
    common markers are the integer [1] and the string ["M1"], and the
    call ends in the [TypeError] of [sorted]: a missing profile is not the
    only way for the call to fail. *)
Theorem analyze_parentage_mixed_identifiers :
  is_Some (profiles mixed_trio !! "Mother")
  ∧ is_Some (profiles mixed_trio !! "Father")
  ∧ is_Some (profiles mixed_trio !! "Offspring")
  ∧ common_markers_of
      [(MInt 1, RStr "A/A"); (MStr "M1", RStr "A/B")]
      [(MInt 1, RStr "A/A"); (MStr "M1", RStr "A/B")]
      [(MInt 1, RStr "A/A"); (MStr "M1", RStr "A/B")]
    = {[MInt 1; MStr "M1"]}
  ∧ analyze_parentage "Mother" "Father" "Offspring" mixed_trio
    = Raise TypeError.
Proof.
  split_and!; [vm_compute; by eexists..|by vm_compute|by vm_compute].
Qed.

(** With a profile missing the call returns the null result, hands the
    object back unchanged and prints the missing names only; no other call
    returns the null result. *)
Lemma analyze_parentage_missing_profile m f o self :
  (profiles self !! m = None ∨ profiles self !! f = None
   ∨ profiles self !! o = None) ↔
  ∃ missing_dogs,
    missing_dogs ≠ []
    ∧ analyze_parentage m f o self
      = Return (None, self, [PMissingDogs missing_dogs]).
Proof.
  split.
  - intros H.
    destruct (analyze_parentage_missing m f o self) as (l & _ & Hl & Hrun).
    + intros (H1 & H2 & H3). destruct H as [H|[H|H]]; rewrite H in *;
        by (apply is_Some_None in H1 || apply is_Some_None in H2
            || apply is_Some_None in H3).
    + by exists l.
  - intros (l & _ & [Hmiss _]%analyze_parentage_None).
    destruct (profiles self !! m); [|by left].
    destruct (profiles self !! f); [|by right; left].
    destruct (profiles self !! o); [|by right; right].
    destruct Hmiss. by eauto.
Qed.

End Claims.

(** * Further properties *)

(** ** Sorting strings *)

Section StringOrder.
Import Str StrFacts.

Lemma ltb_le x y : String.ltb x y = true → (x ≤ y)%string.
Proof.
  unfold String.le, String.leb, String.ltb.
  by destruct (String.compare x y).
Qed.

Lemma not_ltb_le x y : String.ltb x y = false → (y ≤ x)%string.
Proof.
  unfold String.le, String.leb, String.ltb.
  rewrite (String.compare_antisym x y).
  by destruct (String.compare y x).
Qed.

Lemma le_not_ltb x y : (y ≤ x)%string → String.ltb x y = false.
Proof.
  unfold String.le, String.leb, String.ltb.
  rewrite (String.compare_antisym x y).
  by destruct (String.compare y x).
Qed.

Lemma insort_perm x l : insort x l ≡ₚ x :: l.
Proof.
  induction l as [|y l IH]; simpl; [done|].
  destruct (String.ltb x y); [done|]. rewrite IH. apply perm_swap.
Qed.

Lemma fold_insort_perm l acc :
  fold_left (λ acc x, insort x acc) l acc ≡ₚ acc ++ l.
Proof.
  revert acc. induction l as [|x l IH]; intros acc; simpl.
  - by rewrite app_nil_r.
  - rewrite IH, insort_perm. simpl. apply Permutation_middle.
Qed.

Lemma sorted_perm l : sorted l ≡ₚ l.
Proof. apply fold_insort_perm. Qed.

Lemma insort_StronglySorted x l :
  StronglySorted String.le l → StronglySorted String.le (insort x l).
Proof.
  induction 1 as [|y l Hl IH Hy]; simpl; [by repeat constructor|].
  destruct (String.ltb x y) eqn:Hxy.
  - constructor; [by constructor|].
    constructor; [by apply ltb_le|].
    eapply Forall_impl; [done|]. intros z Hz. simpl in Hz.
    by etrans; [apply ltb_le|].
  - constructor; [done|].
    rewrite Forall_forall. intros z Hz. rewrite insort_perm in Hz.
    apply elem_of_cons in Hz as [->|Hz]; [by apply not_ltb_le|].
    by eapply Forall_forall in Hy.
Qed.

Lemma fold_insort_StronglySorted l acc :
  StronglySorted String.le acc →
  StronglySorted String.le (fold_left (λ acc x, insort x acc) l acc).
Proof.
  revert acc. induction l as [|x l IH]; intros acc Hacc; simpl; [done|].
  by apply IH, insort_StronglySorted.
Qed.

Lemma sorted_StronglySorted l : StronglySorted String.le (sorted l).
Proof. apply fold_insort_StronglySorted. constructor. Qed.

Lemma insort_last x l : Forall (λ y, (y ≤ x)%string) l → insort x l = l ++ [x].
Proof.
  induction 1 as [|y l Hy Hl IH]; simpl; [done|].
  by rewrite (le_not_ltb x y), IH.
Qed.

Lemma fold_insort_sorted l acc :
  StronglySorted String.le (acc ++ l) →
  fold_left (λ acc x, insort x acc) l acc = acc ++ l.
Proof.
  revert acc. induction l as [|x l IH]; intros acc Hs; simpl.
  - by rewrite app_nil_r.
  - rewrite insort_last.
    + rewrite IH; rewrite <- app_assoc; done.
    + rewrite Forall_forall. intros y Hy.
      eapply (StronglySorted_app_1_elem_of _ acc (x :: l)); [done..|left].
Qed.

(** Sorting a list that is in order gives the list back. *)
Lemma sorted_of_sorted l : StronglySorted String.le l → sorted l = l.
Proof. intros Hl. by apply (fold_insort_sorted l []). Qed.

Lemma sorted_pair_inv x y a b :
  sorted [x; y] = sorted [a; b] ↔ (x = a ∧ y = b) ∨ (x = b ∧ y = a).
Proof.
  split.
  - rewrite !sorted_pair.
    destruct (String.ltb y x), (String.ltb b a); intros [= -> ->]; auto.
  - intros [[-> ->]|[-> ->]]; [done|apply sorted_swap].
Qed.

End StringOrder.

(** ** The genotypes [parse_genotype] returns *)

Section ParsedGenotypes.
Import Str StrFacts.

Lemma lstrip_strip s : lstrip (strip s) = strip s.
Proof. unfold strip. by rewrite lstrip_rstrip, lstrip_idemp. Qed.

Lemma rstrip_strip s : rstrip (strip s) = strip s.
Proof. unfold strip. by rewrite rstrip_idemp. Qed.

Lemma lstrip_empty_all_space s : lstrip s = "" → all_space s = true.
Proof.
  induction s as [|c s IH]; simpl; [done|].
  destruct (isspace c); [done|discriminate].
Qed.

Lemma strip_empty_all_space s : strip s = "" → all_space s = true.
Proof.
  unfold strip. intros H. apply lstrip_empty_all_space.
  destruct (lstrip s) as [|c t] eqn:Hl; [done|].
  assert (Hc : isspace c = false).
  { destruct (isspace c) eqn:Hc; [|done].
    pose proof (lstrip_idemp s) as Hi. rewrite Hl in Hi. simpl in Hi.
    rewrite Hc in Hi.
    assert (String.length (lstrip t) ≤ String.length t) as Hlen.
    { clear. induction t as [|d t IH]; simpl; [done|].
      destruct (isspace d); simpl; lia. }
    rewrite Hi in Hlen. simpl in Hlen. lia. }
  by rewrite rstrip_cons_nonspace in H.
Qed.

Lemma split_length c s : contains c s = true → 2 ≤ length (split c s).
Proof.
  induction s as [|d s IH]; simpl; [done|].
  destruct (Ascii.eqb d c).
  - intros _. destruct s; simpl; [lia|].
    destruct (Ascii.eqb _ _); simpl; [lia|]. destruct (split c s); simpl; lia.
  - intros Hs. specialize (IH Hs).
    destruct (split c s); simpl in *; lia.
Qed.

Lemma split_tokens_no_sep c s : Forall (λ t, contains c t = false) (split c s).
Proof.
  induction s as [|d s IH]; simpl; [by repeat constructor|].
  destruct (Ascii.eqb d c) eqn:Hd; [by constructor|].
  destruct (split c s) as [|t ts]; [by repeat constructor; simpl; rewrite Hd|].
  apply Forall_cons in IH as [Ht Hts].
  constructor; [|done]. simpl. by rewrite Hd.
Qed.

Lemma split_tokens_without c d s :
  contains c s = false → Forall (λ t, contains c t = false) (split d s).
Proof.
  induction s as [|e s IH]; simpl; [by repeat constructor|].
  destruct (Ascii.eqb e c) eqn:He; [done|]. intros Hs. specialize (IH Hs).
  destruct (Ascii.eqb e d); [by constructor|].
  destruct (split d s) as [|t ts]; [by repeat constructor; simpl; rewrite He|].
  apply Forall_cons in IH as [Ht Hts].
  constructor; [|done]. simpl. by rewrite He.
Qed.

(** The tokens a value is cut into, before they are trimmed and sorted. *)
Lemma parse_genotype_alleles v g :
  parse_genotype v = Some g →
  ∃ alleles,
    g = sorted (map strip alleles) ∧ 2 ≤ length alleles
    ∧ Forall (λ t, contains "/" t = false) alleles.
Proof.
  unfold parse_genotype. destruct (isna v || eq_empty v); [done|].
  intros [= <-]. eexists. split; [done|].
  destruct (contains "/" (strip (py_str v))) eqn:Hs.
  - split; [by apply split_length|apply split_tokens_no_sep].
  - destruct (contains "|" (strip (py_str v))) eqn:Hp.
    + split; [by apply split_length|by apply split_tokens_without].
    + split; [simpl; lia|by repeat constructor].
Qed.

Lemma join_cons2 sep x y l :
  join sep (x :: y :: l) = x +:+ sep +:+ join sep (y :: l).
Proof. reflexivity. Qed.

Lemma split_join l :
  l ≠ [] → Forall (λ t, contains "/" t = false) l →
  split "/" (join "/" l) = l.
Proof.
  intros Hne Hl. induction Hl as [|x l Hx Hl IH]; [done|].
  destruct l as [|y l]; [by apply split_no_sep|].
  rewrite join_cons2.
  change (x +:+ "/" +:+ join "/" (y :: l))
    with (x +:+ String "/" (join "/" (y :: l))).
  rewrite split_append_sep by done. by rewrite IH.
Qed.

Lemma contains_join l : 2 ≤ length l → contains "/" (join "/" l) = true.
Proof.
  destruct l as [|x [|y l]]; simpl length; [lia..|]. intros _.
  rewrite join_cons2. apply (contains_append_sep "/" x).
Qed.

Lemma lstrip_join l :
  Forall (λ t, lstrip t = t) l → lstrip (join "/" l) = join "/" l.
Proof.
  destruct 1 as [|x l Hx Hl]; [done|].
  destruct l as [|y l]; [done|]. rewrite join_cons2.
  change (x +:+ "/" +:+ join "/" (y :: l))
    with (x +:+ String "/" (join "/" (y :: l))).
  by rewrite lstrip_append_sep, Hx.
Qed.

Lemma rstrip_join l :
  Forall (λ t, rstrip t = t) l → rstrip (join "/" l) = join "/" l.
Proof.
  induction 1 as [|x l Hx Hl IH]; [done|].
  destruct l as [|y l]; [done|]. rewrite join_cons2.
  change (x +:+ "/" +:+ join "/" (y :: l))
    with (x +:+ String "/" (join "/" (y :: l))).
  by rewrite rstrip_append_sep, IH.
Qed.

Lemma join_nonempty l : 2 ≤ length l → join "/" l ≠ "".
Proof.
  intros Hl Hj. apply contains_join in Hl. by rewrite Hj in Hl.
Qed.

(** X1: every returned genotype has at least two alleles, each of them trimmed
    and free of ['/'], in non-decreasing order. *)
Theorem parse_genotype_shape v g :
  parse_genotype v = Some g →
  2 ≤ length g
  ∧ Forall (λ t, strip t = t ∧ contains "/" t = false) g
  ∧ StronglySorted String.le g.
Proof.
  intros (alleles & -> & Hlen & Hsep)%parse_genotype_alleles.
  split_and!.
  - by rewrite sorted_perm, length_map.
  - rewrite sorted_perm, Forall_forall.
    intros t (a & -> & Ha)%list_elem_of_fmap. split.
    + apply strip_idemp.
    + rewrite contains_strip by done. by eapply Forall_forall in Hsep.
  - apply sorted_StronglySorted.
Qed.

Lemma parse_genotype_shape_witness :
  2 ≤ length ["A"; "B"]
  ∧ Forall (λ t, strip t = t ∧ contains "/" t = false) ["A"; "B"]
  ∧ StronglySorted String.le ["A"; "B"].
Proof. apply (parse_genotype_shape (RStr " B / A ")). reflexivity. Defined.

(** The tokens of a returned genotype are trimmed on both sides and hold
    no ['/']. *)
Lemma parsed_tokens v g :
  parse_genotype v = Some g →
  2 ≤ length g
  ∧ Forall (λ t, (lstrip t = t ∧ rstrip t = t) ∧ contains "/" t = false) g.
Proof.
  intros (alleles & -> & Hlen & Hsep)%parse_genotype_alleles. split.
  - by rewrite sorted_perm, length_map.
  - rewrite sorted_perm, Forall_forall.
    intros t (a & -> & Ha)%list_elem_of_fmap. split_and!.
    + apply lstrip_strip.
    + apply rstrip_strip.
    + rewrite contains_strip by done. by eapply Forall_forall in Hsep.
Qed.

(** Such tokens, in order, are what their ['/'.join] parses to. *)
Lemma join_reparse g :
  2 ≤ length g →
  Forall (λ t, (lstrip t = t ∧ rstrip t = t) ∧ contains "/" t = false) g →
  StronglySorted String.le g →
  parse_genotype (RStr (join "/" g)) = Some g.
Proof.
  intros Hg Htok Hsorted.
  rewrite parse_genotype_str by by apply join_nonempty.
  assert (Hstrip : strip (join "/" g) = join "/" g).
  { unfold strip. rewrite lstrip_join, rstrip_join; [done|..];
      eapply Forall_impl; try exact Htok; by intros ? [[??]?]. }
  rewrite Hstrip, contains_join by done.
  rewrite split_join;
    [|by destruct g; [simpl in Hg; lia|]
     |eapply Forall_impl; [exact Htok|]; by intros ? [[??]?]].
  assert (Hmap : map strip g = g).
  { clear -Htok. induction Htok as [|t l [[Hl Hr] _] _ IH]; [done|].
    simpl. rewrite IH. f_equal. unfold strip. by rewrite Hl. }
  rewrite Hmap. f_equal. by apply sorted_of_sorted.
Qed.

Lemma parsed_sorted v g :
  parse_genotype v = Some g → StronglySorted String.le g.
Proof.
  intros (alleles & -> & _)%parse_genotype_alleles.
  apply sorted_StronglySorted.
Qed.

(** X2: a returned genotype written with ['/'.join], as the report writes it,
    parses to itself. *)
Theorem parse_genotype_join_round_trip v g :
  parse_genotype v = Some g → parse_genotype (RStr (join "/" g)) = Some g.
Proof.
  intros Hv. destruct (parsed_tokens v g Hv) as [Hlen Htok].
  apply join_reparse; [done..|].
  by eapply parsed_sorted.
Qed.

Lemma parse_genotype_join_round_trip_witness :
  parse_genotype (RStr (join "/" ["138"; "142"])) = Some ["138"; "142"].
Proof.
  apply (parse_genotype_join_round_trip (RStr "142 | 138")). reflexivity.
Defined.

(** X3: white space around a cell that is not blank does not matter. *)
Theorem parse_genotype_strip s :
  all_space s = false →
  parse_genotype (RStr (strip s)) = parse_genotype (RStr s).
Proof.
  intros Hs.
  assert (s ≠ "") by (by intros ->).
  assert (strip s ≠ "").
  { intros He%strip_empty_all_space. congruence. }
  rewrite !parse_genotype_str by done. by rewrite strip_idemp.
Qed.

Lemma parse_genotype_strip_witness :
  parse_genotype (RStr "B/A") = parse_genotype (RStr "  B/A ").
Proof. by apply (parse_genotype_strip "  B/A "). Defined.

End ParsedGenotypes.

(** ** More on [check_mendelian_inheritance] *)

Section MendelianMore.
Import Str StrFacts.

Lemma possible_offspring_swap (p1 p2 g : Genotype) :
  g ∈ flat_map (λ a, map (λ b, sorted [a; b]) p2) p1
  ↔ g ∈ flat_map (λ a, map (λ b, sorted [a; b]) p1) p2.
Proof.
  rewrite !possible_offspring_spec. split.
  - intros (a & b & Ha & Hb & ->). exists b, a. by rewrite sorted_swap.
  - intros (a & b & Ha & Hb & ->). exists b, a. by rewrite sorted_swap.
Qed.

(** X4: the two parents can be swapped: the verdict stays the same, and so
    do the possible genotypes and the observed one that the detail names,
    though the possible ones may come to be listed in another order. *)
Theorem check_mendelian_inheritance_symmetric (p1 p2 off : option Genotype) :
  (check_mendelian_inheritance p1 p2 off).1
  = (check_mendelian_inheritance p2 p1 off).1
  ∧ same_detail (check_mendelian_inheritance p1 p2 off).2
                (check_mendelian_inheritance p2 p1 off).2.
Proof.
  unfold check_mendelian_inheritance.
  rewrite (andb_comm (truthy p1) (truthy p2)).
  destruct (negb _); [done|]. simpl. split.
  - apply bool_decide_ext, possible_offspring_swap.
  - split; [|done]. intros g. apply possible_offspring_swap.
Qed.

(** X5: a two-allele offspring is consistent exactly when one of its alleles
    is found in the first parent and the other one in the second. *)
Theorem check_one_allele_from_each_parent (p1 p2 : Genotype) (o1 o2 : string) :
  p1 ≠ [] → p2 ≠ [] →
  (check_mendelian_inheritance (Some p1) (Some p2) (Some [o1; o2])).1 = true
  ↔ (o1 ∈ p1 ∧ o2 ∈ p2) ∨ (o2 ∈ p1 ∧ o1 ∈ p2).
Proof.
  intros H1 H2. rewrite check_consistent_iff by done. split.
  - intros (a & b & Ha & Hb & [[-> ->]|[-> ->]]%sorted_pair_inv); auto.
  - intros [[Ha Hb]|[Ha Hb]].
    + exists o1, o2. by split_and!.
    + exists o2, o1. split_and!; [done..|]. apply sorted_swap.
Qed.

Lemma check_one_allele_from_each_parent_witness :
  (check_mendelian_inheritance
     (Some ["A"; "B"]) (Some ["A"; "C"]) (Some ["C"; "B"])).1 = true.
Proof.
  apply check_one_allele_from_each_parent; [done..|].
  right. split; apply list_elem_of_In; simpl; auto.
Defined.

End MendelianMore.

(** ** More on the loop over the common markers *)

Section LoopMore.
Context (ml fl ol : gmap MarkerID RawValue).

Lemma truthy_Some g : truthy g = true → ∃ l, g = Some l ∧ l ≠ [].
Proof. destruct g as [[|x l]|]; simpl; [done| |done]. by eauto. Qed.

(** One turn of the loop: the marker is passed over, or one entry is
    appended. *)
Lemma analyze_marker_step m r r' :
  analyze_marker ml fl ol m r = Return r' →
  (testable ml fl ol m = false ∧ r' = r)
  ∨ (testable ml fl ol m = true
     ∧ ∃ e, marker e = m ∧ entry_of_marker ml fl ol e
        ∧ marker_details r' = marker_details r ++ [e]
        ∧ exclusions r'
          = exclusions r ++ List.filter (λ e, negb (consistent e)) [e]
        ∧ consistent_markers r'
          = consistent_markers r + length (List.filter consistent [e])).
Proof.
  unfold analyze_marker, testable. intros H.
  bind_inv H. bind_inv H. bind_inv H.
  apply getitem_Return in Ha, Ha0, Ha1. rewrite Ha, Ha0, Ha1.
  destruct (truthy (parse_genotype a) && truthy (parse_genotype a0)
            && truthy (parse_genotype a1)) eqn:Ht; simpl in H.
  - right. split; [done|].
    apply andb_true_iff in Ht as [[(ga & Hga & _)%truthy_Some
      (gb & Hgb & _)%truthy_Some]%andb_true_iff (gc & Hgc & _)%truthy_Some].
    rewrite Hga, Hgb, Hgc in H. simpl in H.
    destruct (check_mendelian_inheritance _ _ _) as [c d] eqn:Hc.
    injection H as <-.
    exists {| marker := m; mother := ga; father := gb; offspring := gc;
              consistent := c; details := d |}.
    split; [reflexivity|]. simpl.
    split; [by exists a, a0, a1|]. by destruct c; simpl; rewrite ?app_nil_r.
  - left. split; [done|]. by injection H as <-.
Qed.

Lemma analyze_markers_details ms r r' :
  analyze_markers ml fl ol ms r = Return r' →
  marker <$> marker_details r'
  = (marker <$> marker_details r) ++ List.filter (testable ml fl ol) ms.
Proof.
  revert r. induction ms as [|m ms IH]; intros r H; simpl in H.
  - injection H as <-. by rewrite app_nil_r.
  - bind_inv H. rewrite (IH _ H). simpl.
    apply analyze_marker_step in Ha
      as [[-> ->]|(-> & e & <- & _ & -> & _)]; [done|].
    by rewrite fmap_app, <- app_assoc.
Qed.

Lemma analyze_markers_entries ms r r' :
  Forall (entry_of_marker ml fl ol) (marker_details r) →
  analyze_markers ml fl ol ms r = Return r' →
  Forall (entry_of_marker ml fl ol) (marker_details r').
Proof.
  revert r. induction ms as [|m ms IH]; intros r Hr H; simpl in H.
  - by injection H as <-.
  - bind_inv H. apply (IH a); [|done].
    apply analyze_marker_step in Ha
      as [[_ ->]|(_ & e & _ & He & -> & _)]; [done|].
    apply Forall_app. by split; [|repeat constructor].
Qed.

Lemma analyze_markers_exclusions ms r r' :
  exclusions r = List.filter (λ e, negb (consistent e)) (marker_details r) →
  consistent_markers r = length (List.filter consistent (marker_details r)) →
  analyze_markers ml fl ol ms r = Return r' →
  exclusions r' = List.filter (λ e, negb (consistent e)) (marker_details r')
  ∧ consistent_markers r'
    = length (List.filter consistent (marker_details r')).
Proof.
  revert r. induction ms as [|m ms IH]; intros r Hx Hc H; simpl in H.
  - by injection H as <-.
  - bind_inv H. apply (IH a); [..|done];
      apply analyze_marker_step in Ha
        as [[_ ->]|(_ & e & _ & _ & Hd & He & Hn)]; try done.
    + by rewrite He, Hd, List.filter_app, Hx.
    + by rewrite Hn, Hd, List.filter_app, length_app, Hc.
Qed.

End LoopMore.

(** ** The order of the common markers *)

Section MarkerOrder.

Lemma ltb_irrefl x : String.ltb x x = false.
Proof.
  unfold String.ltb. pose proof (String.compare_antisym x x) as H.
  by destruct (String.compare x x).
Qed.

Lemma ltb_spec x y : String.ltb x y = true ↔ (x ≤ y)%string ∧ x ≠ y.
Proof.
  split.
  - intros H. split; [by apply ltb_le|].
    intros ->. by rewrite ltb_irrefl in H.
  - intros [Hle Hne]. unfold String.le, String.leb in Hle.
    unfold String.ltb. destruct (String.compare x y) eqn:Hc; [|done..].
    by apply String.compare_eq_iff in Hc.
Qed.

Lemma ltb_trans x y z :
  String.ltb x y = true → String.ltb y z = true → String.ltb x z = true.
Proof.
  rewrite !ltb_spec. intros [Hxy Hne] [Hyz Hne']. split; [by etrans|].
  intros ->. apply Hne. by apply (anti_symm String.le).
Qed.

Lemma ltb_total x y :
  String.ltb x y = false → x ≠ y → String.ltb y x = true.
Proof.
  intros Hxy Hne. apply ltb_spec. split; [by apply not_ltb_le|done].
Qed.

Lemma marker_before_trans x y z :
  marker_before x y → marker_before y z → marker_before x z.
Proof.
  unfold marker_before. destruct x, y, z; simpl; try done.
  - intros [= H1] [= H2]. f_equal. lia.
  - intros [= H1] [= H2]. f_equal. by eapply ltb_trans.
Qed.

Lemma marker_lt_total x y :
  marker_lt x y = Return false → x ≠ y → marker_before y x.
Proof.
  unfold marker_before. destruct x, y; simpl; try done.
  - intros [= H] Hne. f_equal.
    assert (z ≠ z0) by congruence. lia.
  - intros [= H] Hne. f_equal. apply ltb_total; [done|congruence].
Qed.

Lemma insort_marker_perm x l l' :
  insort_marker x l = Return l' → l' ≡ₚ x :: l.
Proof.
  revert l'. induction l as [|y l IH]; intros l' H; simpl in H.
  - by injection H as <-.
  - bind_inv H. destruct a.
    + by injection H as <-.
    + bind_inv H. injection H as <-. rewrite (IH _ Ha0). apply perm_swap.
Qed.

Lemma insort_marker_sorted x l l' :
  StronglySorted marker_before l → x ∉ l →
  insort_marker x l = Return l' → StronglySorted marker_before l'.
Proof.
  intros Hl. revert l'. induction Hl as [|y l Hl IH Hy]; intros l' Hx H;
    simpl in H.
  - injection H as <-. by repeat constructor.
  - bind_inv H. destruct a.
    + injection H as <-. constructor; [by constructor|].
      constructor; [done|].
      eapply Forall_impl; [done|]. intros z Hz. simpl in Hz.
      by eapply marker_before_trans.
    + bind_inv H. injection H as <-.
      apply not_elem_of_cons in Hx as [Hne Hx].
      constructor; [by apply IH|].
      rewrite Forall_forall. intros z Hz.
      rewrite (insort_marker_perm _ _ _ Ha0) in Hz.
      apply elem_of_cons in Hz as [->|Hz]; [by apply marker_lt_total|].
      by eapply Forall_forall in Hy.
Qed.

Lemma sorted_from_sorted acc l l' :
  StronglySorted marker_before acc → NoDup (acc ++ l) →
  sorted_from acc l = Return l' → StronglySorted marker_before l'.
Proof.
  revert acc. induction l as [|x l IH]; intros acc Hacc Hnd H; simpl in H.
  - by injection H as <-.
  - bind_inv H. apply (IH a); [| |done].
    + eapply insort_marker_sorted; [done| |done].
      apply NoDup_app in Hnd as (_ & Hnd & _).
      intros Hx. apply (Hnd x Hx). left.
    + rewrite (insort_marker_perm _ _ _ Ha). simpl.
      by rewrite Permutation_middle.
Qed.

(** The loop visits the common markers in strictly increasing order. *)
Lemma sorted_markers_sorted (S : gset MarkerID) l :
  sorted_markers S = Return l → StronglySorted marker_before l.
Proof.
  apply sorted_from_sorted; [constructor|]. simpl. apply NoDup_elements.
Qed.

Lemma StronglySorted_list_filter {A} (R : relation A) (f : A → bool) l :
  StronglySorted R l → StronglySorted R (List.filter f l).
Proof.
  induction 1 as [|x l Hl IH Hx]; simpl; [constructor|].
  destruct (f x); [|done]. constructor; [done|].
  rewrite Forall_forall. intros y Hy%list_elem_of_In%filter_In.
  destruct Hy as [Hy%list_elem_of_In _]. by eapply Forall_forall in Hx.
Qed.

Lemma list_filter_length_le {A} (f : A → bool) l :
  length (List.filter f l) ≤ length l.
Proof. induction l as [|x l IH]; simpl; [done|]. destruct (f x); simpl; lia. Qed.

End MarkerOrder.

(** ** More on [analyze_parentage] *)

Section AnalyzeMore.
Import Str StrFacts.

(** A returned dictionary, for three given profiles. *)
Lemma analyze_parentage_run m f o self mp fp op res st' out :
  profiles self !! m = Some mp → profiles self !! f = Some fp →
  profiles self !! o = Some op →
  analyze_parentage m f o self = Return (Some res, st', out) →
  ∃ markers r,
    sorted_markers (common_markers_of (data mp) (data fp) (data op))
    = Return markers
    ∧ analyze_markers (to_dict (data mp)) (to_dict (data fp))
        (to_dict (data op)) markers
        (initial_results
           (size (common_markers_of (data mp) (data fp) (data op))))
      = Return r
    ∧ res = with_statistics r
              (if testable_markers r =? 0 then NInt 0
               else NFloat
                      (PrimFloat.mul
                         (PrimFloat.div (float_of_nat (consistent_markers r))
                                        (float_of_nat (testable_markers r)))
                         (float_of_nat 100))).
Proof.
  intros Hm Hf Ho H.
  rewrite (analyze_parentage_loaded _ _ _ _ _ _ _ Hm Hf Ho) in H.
  cbv zeta in H. bind_inv H. bind_inv H. bind_inv H.
  rewrite calculate_rate_Return in Ha1. injection Ha1 as <-.
  injection H as <- _ _. by eauto.
Qed.

Lemma parse_genotype_nonempty v g : parse_genotype v = Some g → g ≠ [].
Proof.
  intros (alleles & -> & Hlen & _)%parse_genotype_alleles Hnil.
  apply (f_equal length) in Hnil. rewrite sorted_perm, length_map in Hnil.
  simpl in Hnil. lia.
Qed.

(** X7: the markers of [marker_details] are the common markers whose three
    cells parse, each once, in the order of the sort; so no more markers
    are tested than are common. *)
Theorem marker_details_are_testable_markers m f o self mp fp op res st' out :
  profiles self !! m = Some mp → profiles self !! f = Some fp →
  profiles self !! o = Some op →
  analyze_parentage m f o self = Return (Some res, st', out) →
  ∃ markers,
    sorted_markers (common_markers_of (data mp) (data fp) (data op))
    = Return markers
    ∧ marker <$> marker_details res
      = List.filter
          (testable (to_dict (data mp)) (to_dict (data fp)) (to_dict (data op)))
          markers
    ∧ (∀ k, k ∈ marker <$> marker_details res
            ↔ k ∈ common_markers_of (data mp) (data fp) (data op)
              ∧ testable (to_dict (data mp)) (to_dict (data fp))
                         (to_dict (data op)) k = true)
    ∧ testable_markers res = length (marker <$> marker_details res)
    ∧ testable_markers res ≤ total_common_markers res.
Proof.
  intros Hm Hf Ho H.
  destruct (analyze_parentage_run _ _ _ _ _ _ _ _ _ _ Hm Hf Ho H)
    as (markers & r & Hs & Hr & ->).
  exists markers. split; [done|].
  pose proof (analyze_markers_details _ _ _ _ _ _ Hr) as Hd.
  pose proof (analyze_markers_invariant _ _ _ _ _ _
                (initial_results_invariant _) Hr) as (_ & Hlen & _).
  pose proof (analyze_markers_total _ _ _ _ _ _ Hr) as Ht.
  simpl in *. split_and!.
  - done.
  - intros k. rewrite Hd. simpl.
    rewrite list_elem_of_In, filter_In, <- list_elem_of_In.
    by rewrite (proj2 (sorted_markers_inv _ _ Hs) k).
  - by rewrite length_fmap.
  - rewrite <- Hlen, <- (length_fmap marker), Hd, Ht.
    rewrite <- (sorted_markers_length _ _ Hs).
    apply list_filter_length_le.
Qed.

Lemma marker_details_are_testable_markers_witness :
  ∃ markers,
    sorted_markers
      (common_markers_of [(MStr "M1", RNaN)] [(MStr "M1", RStr "A/A")]
                         [(MStr "M1", RStr "B/B")])
    = Return markers
    ∧ marker <$> marker_details (run_result (analyze_trio untestable_trio))
      = List.filter
          (testable (to_dict [(MStr "M1", RNaN)])
                    (to_dict [(MStr "M1", RStr "A/A")])
                    (to_dict [(MStr "M1", RStr "B/B")]))
          markers
    ∧ Forall
        (λ k, k ∈ marker <$>
                marker_details (run_result (analyze_trio untestable_trio))
              ↔ k ∈ common_markers_of [(MStr "M1", RNaN)]
                      [(MStr "M1", RStr "A/A")] [(MStr "M1", RStr "B/B")]
                ∧ testable (to_dict [(MStr "M1", RNaN)])
                           (to_dict [(MStr "M1", RStr "A/A")])
                           (to_dict [(MStr "M1", RStr "B/B")]) k = true)
        [MStr "M1"; MStr "M2"]
    ∧ testable_markers (run_result (analyze_trio untestable_trio))
      = length (marker <$>
                  marker_details (run_result (analyze_trio untestable_trio)))
    ∧ testable_markers (run_result (analyze_trio untestable_trio))
      ≤ total_common_markers (run_result (analyze_trio untestable_trio)).
Proof.
  destruct (marker_details_are_testable_markers "Mother" "Father" "Offspring"
              untestable_trio
              (loaded [(MStr "M1", RNaN)]) (loaded [(MStr "M1", RStr "A/A")])
              (loaded [(MStr "M1", RStr "B/B")])
              (run_result (analyze_trio untestable_trio))
              (run_state (analyze_trio untestable_trio))
              (run_output (analyze_trio untestable_trio)))
    as (markers & Hs & Hd & Hin & Hlen & Hle); [by vm_compute..|].
  exists markers. split_and!; [exact Hs|exact Hd| |exact Hlen|exact Hle].
  apply Forall_forall. intros k _. apply Hin.
Defined.

(** X8: the entries of [marker_details], and those of [exclusions], come in
    strictly increasing order of their markers: no marker is reported
    twice. *)
Theorem marker_details_increasing m f o self res st' out :
  analyze_parentage m f o self = Return (Some res, st', out) →
  StronglySorted marker_before (marker <$> marker_details res)
  ∧ StronglySorted marker_before (marker <$> exclusions res).
Proof.
  intros H.
  apply analyze_parentage_inv in H
    as (mp & fp & op & markers & r & rate & _ & _ & _ & Hs & Hr & _ & ->
        & _).
  pose proof (analyze_markers_details _ _ _ _ _ _ Hr) as Hd.
  destruct (analyze_markers_exclusions _ _ _ markers (initial_results _) r
              eq_refl eq_refl Hr)
    as [Hx _].
  simpl in *.
  assert (Hsorted : StronglySorted marker_before (marker <$> marker_details r)).
  { rewrite Hd. apply StronglySorted_list_filter.
    by eapply sorted_markers_sorted. }
  split; [done|]. rewrite Hx. clear -Hsorted.
  induction (marker_details r) as [|e l IH]; simpl; [constructor|].
  apply StronglySorted_cons in Hsorted as [He Hl].
  destruct (consistent e); simpl; [by apply IH|].
  constructor; [by apply IH|].
  rewrite Forall_forall. intros k (e' & -> & He')%list_elem_of_fmap.
  apply list_elem_of_In, filter_In in He' as [He' _].
  eapply Forall_forall in He; [done|].
  apply list_elem_of_fmap. exists e'. by rewrite list_elem_of_In.
Qed.

Lemma marker_details_increasing_witness :
  StronglySorted marker_before
    (marker <$> marker_details (run_result (analyze_trio small_trio)))
  ∧ StronglySorted marker_before
      (marker <$> exclusions (run_result (analyze_trio small_trio))).
Proof.
  apply (marker_details_increasing "Mother" "Father" "Offspring" small_trio _
           (run_state (analyze_trio small_trio))
           (run_output (analyze_trio small_trio))).
  by vm_compute.
Defined.

(** X9: each entry of [marker_details] holds the three parsed cells of its
    marker and the verdict of the check on them; the check is never left
    through its missing-data exit. *)
Theorem marker_details_entries m f o self mp fp op res st' out :
  profiles self !! m = Some mp → profiles self !! f = Some fp →
  profiles self !! o = Some op →
  analyze_parentage m f o self = Return (Some res, st', out) →
  ∀ e, e ∈ marker_details res →
    entry_of_marker (to_dict (data mp)) (to_dict (data fp))
                    (to_dict (data op)) e
    ∧ details e ≠ MissingGenotypeData.
Proof.
  intros Hm Hf Ho H e He.
  destruct (analyze_parentage_run _ _ _ _ _ _ _ _ _ _ Hm Hf Ho H)
    as (markers & r & Hs & Hr & ->).
  simpl in He.
  assert (Hall : Forall (entry_of_marker (to_dict (data mp))
                  (to_dict (data fp)) (to_dict (data op))) (marker_details r)).
  { eapply analyze_markers_entries; [|done]. constructor. }
  eapply Forall_forall in Hall; [|done]. split; [done|].
  destruct Hall as (a & b & c & _ & _ & _ & Ha & Hb & Hc & Hcheck).
  apply parse_genotype_nonempty in Ha, Hb, Hc.
  destruct (mother e), (father e), (offspring e); try done.
  simpl in Hcheck. injection Hcheck as _ <-. done.
Qed.

Lemma marker_details_entries_witness :
  Forall
    (λ e,
       entry_of_marker
         (to_dict [(MStr "M1", RStr "A/B"); (MStr "M2", RStr "A/A")])
         (to_dict [(MStr "M1", RStr "A/C"); (MStr "M2", RStr "B/B")])
         (to_dict [(MStr "M2", RStr "C/C"); (MStr "M1", RStr "C|B")]) e
       ∧ details e ≠ MissingGenotypeData)
    (marker_details (run_result (analyze_trio small_trio))).
Proof.
  apply Forall_forall.
  apply (marker_details_entries "Mother" "Father" "Offspring" small_trio
           (loaded [(MStr "M1", RStr "A/B"); (MStr "M2", RStr "A/A")])
           (loaded [(MStr "M1", RStr "A/C"); (MStr "M2", RStr "B/B")])
           (loaded [(MStr "M2", RStr "C/C"); (MStr "M1", RStr "C|B")]) _
           (run_state (analyze_trio small_trio))
           (run_output (analyze_trio small_trio)));
    by vm_compute.
Defined.

(** X10: [exclusions] is [marker_details] without its consistent entries, in
    the same order, and the two counts are the numbers of consistent and of
    inconsistent entries. *)
Theorem exclusions_are_inconsistent_details m f o self res st' out :
  analyze_parentage m f o self = Return (Some res, st', out) →
  exclusions res = List.filter (λ e, negb (consistent e)) (marker_details res)
  ∧ consistent_markers res
    = length (List.filter consistent (marker_details res))
  ∧ inconsistent_markers res
    = length (List.filter (λ e, negb (consistent e)) (marker_details res)).
Proof.
  intros H.
  apply analyze_parentage_inv in H
    as (mp & fp & op & markers & r & rate & _ & _ & _ & _ & Hr & _ & -> & _).
  destruct (analyze_markers_exclusions _ _ _ markers (initial_results _) r
              eq_refl eq_refl Hr)
    as [Hx Hc].
  pose proof (analyze_markers_invariant _ _ _ _ _ _
                (initial_results_invariant _) Hr) as (_ & _ & Hlen & _).
  simpl. split_and!; [done..|]. by rewrite <- Hlen, Hx.
Qed.

Lemma exclusions_are_inconsistent_details_witness :
  exclusions (run_result (analyze_trio small_trio))
  = List.filter (λ e, negb (consistent e))
      (marker_details (run_result (analyze_trio small_trio)))
  ∧ consistent_markers (run_result (analyze_trio small_trio))
    = length (List.filter consistent
                (marker_details (run_result (analyze_trio small_trio))))
  ∧ inconsistent_markers (run_result (analyze_trio small_trio))
    = length (List.filter (λ e, negb (consistent e))
                (marker_details (run_result (analyze_trio small_trio)))).
Proof.
  apply (exclusions_are_inconsistent_details "Mother" "Father" "Offspring"
           small_trio _ (run_state (analyze_trio small_trio))
           (run_output (analyze_trio small_trio))).
  by vm_compute.
Defined.

End AnalyzeMore.

(** ** The statistics and the two ladders *)

Section Statistics.

(** X12: the two ladders agree: the call concludes ["PARENTAGE CONFIRMED"] or
    ["PARENTAGE LIKELY"] exactly when the confidence level is not ["Low"],
    ["Very High"] always goes with ["PARENTAGE CONFIRMED"], and
    ["PARENTAGE EXCLUDED"] is never printed without an exclusion. *)
Theorem conclusion_agrees_with_confidence m f o self res st' out :
  analyze_parentage m f o self = Return (Some res, st', out) →
  ∃ warning label explanation,
    out = warning ++ [PConclusion label explanation]
    ∧ (label = "PARENTAGE CONFIRMED" ∨ label = "PARENTAGE LIKELY"
       ↔ confidence_level res ≠ "Low")
    ∧ (confidence_level res = "Very High" → label = "PARENTAGE CONFIRMED")
    ∧ (label = "PARENTAGE EXCLUDED" → exclusions res ≠ []).
Proof.
  intros H.
  apply analyze_parentage_inv in H
    as (mp & fp & op & markers & r & rate & _ & _ & _ & _ & Hr & _ & -> & _
        & warning & ->).
  pose proof (analyze_markers_invariant _ _ _ _ _ _
                (initial_results_invariant _) Hr) as (_ & _ & Hx & _).
  exists warning. do 2 eexists. split; [reflexivity|].
  rewrite determine_conclusion_cases. unfold with_statistics.
  cbn [confidence_level inconsistent_markers consistent_markers exclusions].
  rewrite determine_confidence_cases.
  repeat case_decide; split_and!;
    try (split; [intros [?|?]|intros ?]); try intros ?;
    first [done | lia | by left | by right
          | intros Hnil; rewrite Hnil in Hx; simpl in Hx; lia ].
Qed.

Lemma conclusion_agrees_with_confidence_witness :
  ∃ warning label explanation,
    run_output (analyze_trio small_trio)
    = warning ++ [PConclusion label explanation]
    ∧ (label = "PARENTAGE CONFIRMED" ∨ label = "PARENTAGE LIKELY"
       ↔ confidence_level (run_result (analyze_trio small_trio)) ≠ "Low")
    ∧ (confidence_level (run_result (analyze_trio small_trio)) = "Very High"
       → label = "PARENTAGE CONFIRMED")
    ∧ (label = "PARENTAGE EXCLUDED"
       → exclusions (run_result (analyze_trio small_trio)) ≠ []).
Proof.
  apply (conclusion_agrees_with_confidence "Mother" "Father" "Offspring"
           small_trio _ (run_state (analyze_trio small_trio))).
  by vm_compute.
Defined.

(** X13: three profiles without a marker in common: the call still returns a
    dictionary, with every count at 0, the rate 0 and the level ["Low"],
    after the warning and the conclusion ["INCONCLUSIVE"]. *)
Theorem analyze_parentage_no_common_marker m f o self mp fp op :
  profiles self !! m = Some mp → profiles self !! f = Some fp →
  profiles self !! o = Some op →
  common_markers_of (data mp) (data fp) (data op) = ∅ →
  ∃ res,
    analyze_parentage m f o self
    = Return (Some res,
              {| profiles := profiles self; analysis_results := Some res |},
              [PFewMarkersWarning;
               PConclusion "INCONCLUSIVE"
                 "Results are ambiguous. Additional testing may be needed."])
    ∧ res = {| total_common_markers := 0;
               testable_markers := 0;
               consistent_markers := 0;
               inconsistent_markers := 0;
               exclusions := [];
               marker_details := [];
               confidence_level := "Low";
               consistency_rate := Some (NInt 0) |}.
Proof.
  intros Hm Hf Ho Hempty. eexists.
  rewrite (analyze_parentage_loaded _ _ _ _ _ _ _ Hm Hf Ho), Hempty.
  unfold sorted_markers. rewrite elements_empty, size_empty.
  split; reflexivity.
Qed.

Lemma analyze_parentage_no_common_marker_witness :
  ∃ res,
    analyze_parentage "Mother" "Father" "Offspring"
      (trio [(MStr "M1", RStr "A/A")] [(MStr "M2", RStr "A/A")] [])
    = Return (Some res,
              {| profiles :=
                   profiles (trio [(MStr "M1", RStr "A/A")]
                                  [(MStr "M2", RStr "A/A")] []);
                 analysis_results := Some res |},
              [PFewMarkersWarning;
               PConclusion "INCONCLUSIVE"
                 "Results are ambiguous. Additional testing may be needed."])
    ∧ res = {| total_common_markers := 0;
               testable_markers := 0;
               consistent_markers := 0;
               inconsistent_markers := 0;
               exclusions := [];
               marker_details := [];
               confidence_level := "Low";
               consistency_rate := Some (NInt 0) |}.
Proof.
  apply (analyze_parentage_no_common_marker _ _ _ _
           (loaded [(MStr "M1", RStr "A/A")])
           (loaded [(MStr "M2", RStr "A/A")]) (loaded []));
    by vm_compute.
Defined.

End Statistics.

(** ** [load_dog_profile] *)

Section LoadProfile.

(** The rows that survive the three cleaning steps. *)
Lemma cleaned_rows_spec (rows : list SheetRow) row :
  row ∈ List.filter (λ row, negb (eq_empty (Genotype_cell row)))
          (List.filter (λ row, negb (eq_empty (MarkerID_cell row)))
             (dropna rows))
  ↔ row ∈ rows
    ∧ isna (MarkerID_cell row) = false ∧ isna (Genotype_cell row) = false
    ∧ eq_empty (MarkerID_cell row) = false
    ∧ eq_empty (Genotype_cell row) = false.
Proof.
  unfold dropna. rewrite !list_elem_of_In, !filter_In.
  rewrite andb_true_iff, !negb_true_iff. tauto.
Qed.

Lemma cleaned_rows_length (rows : list SheetRow) :
  length (List.filter (λ row, negb (eq_empty (Genotype_cell row)))
            (List.filter (λ row, negb (eq_empty (MarkerID_cell row)))
               (dropna rows)))
  ≤ length rows.
Proof.
  unfold dropna.
  etrans; [apply list_filter_length_le|].
  etrans; [apply list_filter_length_le|]. apply list_filter_length_le.
Qed.

Lemma frame_columns_length df :
  (∀ row, row ∈ df → isna (MarkerID_cell row) = false) →
  length (frame_columns df) = length df.
Proof.
  induction df as [|row df IH]; intros Hdf; [done|].
  unfold frame_columns. simpl.
  assert (Hrow : isna (MarkerID_cell row) = false) by (apply Hdf; left).
  destruct (MarkerID_cell row); simpl in *; try done;
    f_equal; apply IH; intros r Hr; apply Hdf; by right.
Qed.

Lemma parse_genotype_is_Some v :
  isna v = false → eq_empty v = false → is_Some (parse_genotype v).
Proof.
  intros Hna He. unfold parse_genotype. rewrite Hna, He. by eexists.
Qed.

Lemma frame_columns_clean df :
  (∀ row, row ∈ df →
     isna (Genotype_cell row) = false ∧ eq_empty (MarkerID_cell row) = false
     ∧ eq_empty (Genotype_cell row) = false) →
  clean_rows (frame_columns df).
Proof.
  intros Hdf [k v] (row & Hrow & Hkv)%list_elem_of_omap.
  destruct (Hdf row Hrow) as (Hna & Hm & Hg). simpl.
  destruct (MarkerID_cell row) as [| |s|z]; simpl in *; try done;
    injection Hkv as <- <-.
  - split; [by apply parse_genotype_is_Some|].
    intros [= ->]. done.
  - split; [by apply parse_genotype_is_Some|done].
Qed.

(** X15: a load that returns [True] has read the sheet and stored, under the
    given name, only rows whose genotype cell parses and whose marker is
    not ['']; [marker_count] is their number, at most that of the rows
    read. *)
Theorem load_dog_profile_stores_clean_rows
    answer excel_file dog_name profile_type self self' out :
  load_dog_profile answer excel_file dog_name profile_type self
  = (true, self', out) →
  ∃ rows p,
    answer = Sheet rows ∧ profiles self' !! dog_name = Some p
    ∧ clean_rows (data p)
    ∧ marker_count p = length (data p) ∧ marker_count p ≤ length rows
    ∧ out = [PLoaded dog_name (marker_count p) profile_type].
Proof.
  destruct answer as [| |rows]; simpl; [done..|]. intros [= <- <-].
  eexists rows, _. split; [done|]. simpl. rewrite lookup_insert_eq.
  split; [done|]. simpl. split_and!.
  - apply frame_columns_clean. intros row Hrow%cleaned_rows_spec. tauto.
  - symmetry. apply frame_columns_length.
    intros row Hrow%cleaned_rows_spec. tauto.
  - apply cleaned_rows_length.
  - done.
Qed.

Lemma load_dog_profile_stores_clean_rows_witness :
  ∃ rows p,
    Sheet [ {| MarkerID_cell := RStr "M1"; Location_cell := RNaN;
               Genotype_cell := RStr "A/B" |};
            {| MarkerID_cell := RStr "M2"; Location_cell := RNaN;
               Genotype_cell := RNaN |};
            {| MarkerID_cell := RStr ""; Location_cell := RNaN;
               Genotype_cell := RStr "A/A" |} ] = Sheet rows
    ∧ profiles
        (load_dog_profile
           (Sheet [ {| MarkerID_cell := RStr "M1"; Location_cell := RNaN;
                       Genotype_cell := RStr "A/B" |};
                    {| MarkerID_cell := RStr "M2"; Location_cell := RNaN;
                       Genotype_cell := RNaN |};
                    {| MarkerID_cell := RStr ""; Location_cell := RNaN;
                       Genotype_cell := RStr "A/A" |} ])
           "data/Mother.xlsx" "Mother" "DNA Page 3" new_analyzer).1.2
      !! "Mother" = Some p
    ∧ clean_rows (data p)
    ∧ marker_count p = length (data p) ∧ marker_count p ≤ length rows
    ∧ [PLoaded "Mother" 1 "DNA Page 3"]
      = [PLoaded "Mother" (marker_count p) "DNA Page 3"].
Proof.
  apply (load_dog_profile_stores_clean_rows _ "data/Mother.xlsx" _ _
           new_analyzer).
  reflexivity.
Defined.

(** X16: a load touches nothing but the profile stored under its name, and
    nothing at all when it returns [False], which it does exactly when the
    file is missing or reading it raises. *)
Theorem load_dog_profile_frame
    answer excel_file dog_name profile_type self ok self' out :
  load_dog_profile answer excel_file dog_name profile_type self
  = (ok, self', out) →
  (ok = false ↔ answer = FileMissing ∨ answer = ReadRaises)
  ∧ (ok = false → self' = self)
  ∧ analysis_results self' = analysis_results self
  ∧ ∀ other, other ≠ dog_name →
      profiles self' !! other = profiles self !! other.
Proof.
  destruct answer as [| |rows]; simpl; intros [= <- <- _].
  - split_and!; try done. split; auto.
  - split_and!; try done. split; auto.
  - split_and!; try done.
    + split; [done|]. by intros [|].
    + intros other Hne. simpl. by rewrite lookup_insert_ne.
Qed.

Lemma load_dog_profile_frame_witness :
  (false = false ↔ FileMissing = FileMissing ∨ FileMissing = ReadRaises)
  ∧ (false = false → small_trio = small_trio)
  ∧ analysis_results small_trio = analysis_results small_trio
  ∧ Forall (λ other, other ≠ "Puppy" →
              profiles small_trio !! other = profiles small_trio !! other)
      ["Mother"; "Father"; "Offspring"].
Proof.
  destruct (load_dog_profile_frame FileMissing "data/Puppy.xlsx" "Puppy"
              "DNA Page 3" small_trio false small_trio
              [PFileNotFound "data/Puppy.xlsx"] eq_refl)
    as (H1 & H2 & H3 & H4).
  split_and!; [exact H1|exact H2|exact H3|].
  apply Forall_forall. intros other _. apply H4.
Defined.

Lemma load_dog_profile_keeps_clean
    answer excel_file dog_name profile_type self ok self' out :
  (∀ n p, profiles self !! n = Some p → clean_rows (data p)) →
  load_dog_profile answer excel_file dog_name profile_type self
  = (ok, self', out) →
  ∀ n p, profiles self' !! n = Some p → clean_rows (data p).
Proof.
  intros Hself. destruct answer as [| |rows]; simpl; intros [= <- <- _];
    [done..|].
  intros n p. simpl. destruct (decide (dog_name = n)) as [->|Hne].
  - rewrite lookup_insert_eq. intros [= <-]. simpl.
    apply frame_columns_clean. intros row Hrow%cleaned_rows_spec. tauto.
  - rewrite lookup_insert_ne by done. apply Hself.
Qed.

Lemma load_dog_profile_keeps_names
    answer excel_file dog_name profile_type self ok self' out n :
  load_dog_profile answer excel_file dog_name profile_type self
  = (ok, self', out) →
  is_Some (profiles self !! n) → is_Some (profiles self' !! n).
Proof.
  destruct answer as [| |rows]; simpl; intros [= <- <- _]; [done..|].
  simpl. destruct (decide (dog_name = n)) as [->|Hne].
  - rewrite lookup_insert_eq. by eauto.
  - by rewrite lookup_insert_ne.
Qed.

Lemma load_dog_profile_true_name
    answer excel_file dog_name profile_type self self' out :
  load_dog_profile answer excel_file dog_name profile_type self
  = (true, self', out) →
  is_Some (profiles self' !! dog_name).
Proof.
  destruct answer as [| |rows]; simpl; intros [= <- _]; simpl.
  rewrite lookup_insert_eq. by eauto.
Qed.

End LoadProfile.

(** ** Loading, then analyzing *)

Section LoadThenAnalyze.

Lemma fold_insert_lookup_Some (rows : list (MarkerID * RawValue))
    (d : gmap MarkerID RawValue) k v :
  fold_left (λ d row, <[row.1 := row.2]> d) rows d !! k = Some v →
  (k, v) ∈ rows ∨ d !! k = Some v.
Proof.
  revert d. induction rows as [|[k' v'] rows IH]; intros d; simpl; [auto|].
  intros [H|H]%IH; [left; by right|].
  destruct (decide (k' = k)) as [->|Hne].
  - rewrite lookup_insert_eq in H. injection H as ->. left. left.
  - rewrite lookup_insert_ne in H by done. by right.
Qed.

(** What a lookup dictionary answers is a cell of the table. *)
Lemma to_dict_lookup_Some rows k v :
  to_dict rows !! k = Some v → (k, v) ∈ rows.
Proof.
  intros [H|H]%fold_insert_lookup_Some; [done|].
  by rewrite lookup_empty in H.
Qed.

Lemma list_filter_all {A} (f : A → bool) l :
  (∀ x, x ∈ l → f x = true) → List.filter f l = l.
Proof.
  induction l as [|x l IH]; intros Hl; simpl; [done|].
  rewrite (Hl x) by left. f_equal. apply IH. intros y Hy. apply Hl. by right.
Qed.

Lemma clean_cell_truthy rows k v :
  clean_rows rows → to_dict rows !! k = Some v →
  truthy (parse_genotype v) = true.
Proof.
  intros Hclean Hk%to_dict_lookup_Some.
  destruct (Hclean _ Hk) as [[g Hg] _]. simpl in Hg. rewrite Hg.
  apply parse_genotype_nonempty in Hg. by destruct g.
Qed.

Lemma clean_profiles_testable md fd od k :
  clean_rows md → clean_rows fd → clean_rows od →
  k ∈ common_markers_of md fd od →
  testable (to_dict md) (to_dict fd) (to_dict od) k = true.
Proof.
  intros Hm Hf Ho ([a Ha] & [b Hb] & [c Hc])%common_markers_lookup.
  unfold testable. rewrite Ha, Hb, Hc.
  by rewrite (clean_cell_truthy md k a), (clean_cell_truthy fd k b),
    (clean_cell_truthy od k c).
Qed.

(** On profiles whose cells all parse, no common marker is passed over. *)
Lemma analyze_clean_profiles m f o self mp fp op res st' out :
  profiles self !! m = Some mp → profiles self !! f = Some fp →
  profiles self !! o = Some op →
  clean_rows (data mp) → clean_rows (data fp) → clean_rows (data op) →
  analyze_parentage m f o self = Return (Some res, st', out) →
  testable_markers res = total_common_markers res.
Proof.
  intros Hm Hf Ho Hcm Hcf Hco H.
  destruct (analyze_parentage_run _ _ _ _ _ _ _ _ _ _ Hm Hf Ho H)
    as (markers & r & Hs & Hr & ->).
  pose proof (analyze_markers_details _ _ _ _ _ _ Hr) as Hd.
  pose proof (analyze_markers_invariant _ _ _ _ _ _
                (initial_results_invariant _) Hr) as (_ & Hlen & _).
  pose proof (analyze_markers_total _ _ _ _ _ _ Hr) as Ht.
  simpl in *.
  rewrite <- Hlen, <- (length_fmap marker), Hd, Ht.
  rewrite list_filter_all; [by apply sorted_markers_length|].
  intros k Hk. apply clean_profiles_testable; try done.
  by apply (sorted_markers_inv _ _ Hs).
Qed.

(** X17: after three loads that returned [True] on a new analyzer, as [main]
    does them, the analysis of the three names never fails for a missing
    profile: it returns a dictionary, in which every common marker is
    tested, or ends in the [TypeError] of the sort. *)
Theorem loaded_trio_is_fully_tested
    a1 a2 a3 file1 file2 file3 m f o pt1 pt2 pt3 s1 s2 s3 out1 out2 out3 :
  load_dog_profile a1 file1 m pt1 new_analyzer = (true, s1, out1) →
  load_dog_profile a2 file2 f pt2 s1 = (true, s2, out2) →
  load_dog_profile a3 file3 o pt3 s2 = (true, s3, out3) →
  analyze_parentage m f o s3 = Raise TypeError
  ∨ ∃ res out,
      analyze_parentage m f o s3
      = Return (Some res,
                {| profiles := profiles s3; analysis_results := Some res |},
                out)
      ∧ testable_markers res = total_common_markers res
      ∧ length (marker_details res) = total_common_markers res.
Proof.
  intros H1 H2 H3.
  assert (Hclean : ∀ n p, profiles s3 !! n = Some p → clean_rows (data p)).
  { eapply load_dog_profile_keeps_clean; [|exact H3].
    eapply load_dog_profile_keeps_clean; [|exact H2].
    eapply load_dog_profile_keeps_clean; [|exact H1].
    intros n p. unfold new_analyzer. simpl. by rewrite lookup_empty. }
  assert (is_Some (profiles s3 !! m)) as [mp Hm].
  { eapply load_dog_profile_keeps_names; [exact H3|].
    eapply load_dog_profile_keeps_names; [exact H2|].
    by eapply load_dog_profile_true_name. }
  assert (is_Some (profiles s3 !! f)) as [fp Hf].
  { eapply load_dog_profile_keeps_names; [exact H3|].
    by eapply load_dog_profile_true_name. }
  assert (is_Some (profiles s3 !! o)) as [op Ho]
    by (by eapply load_dog_profile_true_name).
  pose proof (analyze_parentage_outcome _ _ _ _ _ _ _ Hm Hf Ho) as Hout.
  destruct (comparable _); [|by left].
  destruct Hout as (res & out & Hrun). right. exists res, out.
  split; [done|].
  assert (Ht : testable_markers res = total_common_markers res)
    by eauto using analyze_clean_profiles.
  split; [done|]. rewrite <- Ht.
  apply analyze_parentage_inv in Hrun
    as (? & ? & ? & markers & r & rate & _ & _ & _ & _ & Hr & _ & -> & _).
  by pose proof (analyze_markers_invariant _ _ _ _ _ _
                   (initial_results_invariant _) Hr) as (_ & Hlen & _).
Qed.

Lemma loaded_trio_is_fully_tested_witness :
  analyze_parentage "Mother" "Father" "Offspring" loaded_sample_trio
  = Raise TypeError
  ∨ ∃ res out,
      analyze_parentage "Mother" "Father" "Offspring" loaded_sample_trio
      = Return (Some res,
                {| profiles := profiles loaded_sample_trio;
                   analysis_results := Some res |},
                out)
      ∧ testable_markers res = total_common_markers res
      ∧ length (marker_details res) = total_common_markers res.
Proof.
  apply (loaded_trio_is_fully_tested
           (Sheet (sheet_rows mother_cells)) (Sheet (sheet_rows father_cells))
           (Sheet (sheet_rows offspring_cells))
           "data/dog.xlsx" "data/dog.xlsx" "data/dog.xlsx"
           "Mother" "Father" "Offspring"
           "DNA Page 3" "DNA Page 3" "DNA Page 3"
           (load_sample "Mother" mother_cells new_analyzer)
           (load_sample "Father" father_cells
              (load_sample "Mother" mother_cells new_analyzer))
           loaded_sample_trio
           [PLoaded "Mother" 2 "DNA Page 3"]
           [PLoaded "Father" 3 "DNA Page 3"]
           [PLoaded "Offspring" 2 "DNA Page 3"]);
    reflexivity.
Defined.

(** On the sample sheets: two markers are common, both are tested, and one
    of them excludes. *)
Example loaded_sample_trio_run :
  total_common_markers (run_result (analyze_trio loaded_sample_trio)) = 2
  ∧ testable_markers (run_result (analyze_trio loaded_sample_trio)) = 2
  ∧ marker <$> exclusions (run_result (analyze_trio loaded_sample_trio))
    = [MStr "M1"].
Proof. split_and!; by vm_compute. Qed.

End LoadThenAnalyze.

(** ** [export_detailed_report] *)

Section ExportReport.

(** What gets written, whatever the writer does. *)
Lemma export_sheets writer output_file self results report printed :
  analysis_results self = Some results →
  export_detailed_report writer output_file self
  = Return (Some report, printed) →
  (∀ rows, Marker_Details report = Some rows →
     rows = marker_row <$> marker_details results)
  ∧ (∀ rows, Exclusions report = Some rows →
       rows = exclusion_row <$> exclusions results)
  ∧ (printed = [PExported output_file] →
       is_Some (Summary report)
       ∧ (Marker_Details report = None ↔ marker_details results = [])
       ∧ (Exclusions report = None ↔ exclusions results = []))
  ∧ (printed = [PExported output_file] ∨ printed = [PErrorExporting])
  ∧ (is_Some (consistency_rate results) →
     opens writer && writes_summary writer && writes_marker_details writer
     && writes_exclusions writer && closes writer = true →
     printed = [PExported output_file]).
Proof.
  intros Hres. unfold export_detailed_report. rewrite Hres.
  destruct writer as [[] [] [] [] [] []];
    destruct (consistency_rate results) as [rate|];
    destruct (marker_details results) as [|e l];
    destruct (exclusions results) as [|x xs];
    cbn -[fmap]; intros [= <- <-]; cbn -[fmap];
    (split_and!;
     [ by intros rows [= <-]
     | by intros rows [= <-]
     | intros [=]; split_and!; by eauto
     | by auto
     | by intros [? [=]] ]).
Qed.

Lemma export_is_attempted writer output_file self results :
  analysis_results self = Some results →
  makes_directory writer = true →
  ∃ report printed,
    export_detailed_report writer output_file self
    = Return (Some report, printed).
Proof.
  intros Hres Hdir. unfold export_detailed_report. rewrite Hres, Hdir.
  cbn [negb].
  repeat match goal with
         | |- context [if ?b then _ else _] => destruct b
         | |- context [match ?o with Some _ => _ | None => _ end] =>
             destruct o
         end; by eauto.
Qed.

Lemma export_directory_error writer output_file self results :
  analysis_results self = Some results →
  makes_directory writer = false →
  export_detailed_report writer output_file self = Raise OSError.
Proof.
  intros Hres Hdir. unfold export_detailed_report. by rewrite Hres, Hdir.
Qed.



(** A writer that raises on the marker sheet: the summary is written, the
    two detail sheets are not, though their counts are 2 and 1, and the
    error is printed. *)
Example export_failing_writer :
  export_detailed_report
    {| makes_directory := true; opens := true; writes_summary := true;
       writes_marker_details := false; writes_exclusions := true;
       closes := true |}
    "truth/report.xlsx" (run_state (analyze_trio small_trio))
  = Return
      (Some {| Summary :=
                 Some [("Total Common Markers", VCount 2);
                       ("Testable Markers", VCount 2);
                       ("Consistent Markers", VCount 1);
                       ("Inconsistent Markers", VCount 1);
                       ("Consistency Rate (%)", VRate (NFloat 50%float));
                       ("Confidence Level", VText "Low")];
               Marker_Details := None;
               Exclusions := None |},
       [PErrorExporting]).
Proof. by vm_compute. Qed.

(** Without analysis results nothing is written, and no directory is
    made. *)
Example export_without_results writer :
  export_detailed_report writer "truth/report.xlsx" new_analyzer
  = Return (None, [PNoResults]).
Proof. reflexivity. Qed.

(** X19: the marker sheet can be checked from its own cells: parsing the
    three genotype strings of a written row and running the check on them
    gives the row's [Consistent] cell back. *)
Theorem report_rows_reproduce_the_check
    m f o self res st' out writer output_file report printed rows row :
  analyze_parentage m f o self = Return (Some res, st', out) →
  export_detailed_report writer output_file st'
  = Return (Some report, printed) →
  Marker_Details report = Some rows → row ∈ rows →
  (check_mendelian_inheritance
     (parse_genotype (RStr (Mother_Genotype row)))
     (parse_genotype (RStr (Father_Genotype row)))
     (parse_genotype (RStr (Offspring_Genotype row)))).1
  = Consistent row.
Proof.
  intros H Hexport Hsheet Hrow.
  apply analyze_parentage_inv in H
    as (mp & fp & op & markers & r & rate & _ & _ & _ & _ & Hr & _ & -> & ->
        & _).
  assert (Hall : Forall (entry_of_marker (to_dict (data mp))
                  (to_dict (data fp)) (to_dict (data op))) (marker_details r)).
  { eapply analyze_markers_entries; [|done]. constructor. }
  destruct (export_sheets writer output_file
              {| profiles := profiles self;
                 analysis_results := Some (with_statistics r rate) |}
              (with_statistics r rate) report printed eq_refl Hexport)
    as (Hms & _).
  apply Hms in Hsheet as ->.
  cbn [with_statistics marker_details] in Hrow.
  apply list_elem_of_fmap in Hrow as (e & -> & He).
  eapply Forall_forall in Hall; [|done].
  destruct Hall as (a & b & c & _ & _ & _ & Ha & Hb & Hc & Hcheck).
  simpl.
  rewrite (join_reparse (mother e)), (join_reparse (father e)),
    (join_reparse (offspring e)), Hcheck;
    eauto using parsed_sorted;
    by eapply parsed_tokens.
Qed.

Lemma report_rows_reproduce_the_check_witness :
  (check_mendelian_inheritance
     (parse_genotype (RStr "A/B")) (parse_genotype (RStr "A/C"))
     (parse_genotype (RStr "B/C"))).1
  = true.
Proof.
  apply (report_rows_reproduce_the_check "Mother" "Father" "Offspring"
           small_trio (run_result (analyze_trio small_trio))
           (run_state (analyze_trio small_trio))
           (run_output (analyze_trio small_trio))
           writer_ok "truth/report.xlsx"
           small_report
           [PExported "truth/report.xlsx"]
           (marker_row <$>
              marker_details (run_result (analyze_trio small_trio)))
           {| Marker_ID := MStr "M1";
              Mother_Genotype := "A/B";
              Father_Genotype := "A/C";
              Offspring_Genotype := "B/C";
              Consistent := true;
              Details :=
                ExpectedGot
                  [["A"; "A"]; ["A"; "C"]; ["A"; "B"]; ["B"; "C"]]
                  ["B"; "C"] |});
    [by vm_compute..|].
  apply list_elem_of_In. vm_compute. by left.
Defined.

End ExportReport.

(** ** Reordering alleles and exchanging parents *)

Section Reordering.
Import Str StrFacts.

(** [sorted] depends on the elements only, not on their order. *)
Lemma sorted_permutation l l' : l ≡ₚ l' → sorted l = sorted l'.
Proof.
  intros Hperm.
  apply (StronglySorted_unique String.le); try apply sorted_StronglySorted.
  by rewrite !sorted_perm.
Qed.

Lemma possible_offspring_perm (p1 p1' p2 p2' g : Genotype) :
  p1 ≡ₚ p1' → p2 ≡ₚ p2' →
  g ∈ flat_map (λ a, map (λ b, sorted [a; b]) p2) p1
  ↔ g ∈ flat_map (λ a, map (λ b, sorted [a; b]) p2') p1'.
Proof.
  intros H1 H2. rewrite !possible_offspring_spec.
  split; intros (a & b & Ha & Hb & ->); exists a, b;
    (split_and!; [|  |done]); by rewrite ?H1, ?H2 in *.
Qed.

Lemma truthy_perm (g g' : Genotype) :
  g ≡ₚ g' → truthy (Some g) = truthy (Some g').
Proof.
  intros Hperm. destruct g, g'; simpl; try done.
  - by apply Permutation_nil_cons in Hperm.
  - symmetry in Hperm. by apply Permutation_nil_cons in Hperm.
Qed.

(** X6: the order in which the alleles of a genotype are listed is of no
    consequence for the verdict, nor for the possible genotypes and the
    observed one that the detail names; only the order in which the
    possible ones are listed may change. *)
Theorem check_mendelian_inheritance_reordered (p1 p1' p2 p2' off off' : Genotype) :
  p1 ≡ₚ p1' → p2 ≡ₚ p2' → off ≡ₚ off' →
  (check_mendelian_inheritance (Some p1) (Some p2) (Some off)).1
  = (check_mendelian_inheritance (Some p1') (Some p2') (Some off')).1
  ∧ same_detail
      (check_mendelian_inheritance (Some p1) (Some p2) (Some off)).2
      (check_mendelian_inheritance (Some p1') (Some p2') (Some off')).2.
Proof.
  intros H1 H2 H3. unfold check_mendelian_inheritance.
  rewrite (truthy_perm _ _ H1), (truthy_perm _ _ H2), (truthy_perm _ _ H3).
  destruct (negb _); [done|]. cbn [from_option id fst snd same_detail].
  rewrite (sorted_permutation _ _ H3). split.
  - apply bool_decide_ext. by apply possible_offspring_perm.
  - split; [|done]. intros g. by apply possible_offspring_perm.
Qed.

Lemma check_mendelian_inheritance_reordered_witness :
  (check_mendelian_inheritance
     (Some ["A"; "B"]) (Some ["C"; "A"]) (Some ["C"; "B"])).1
  = (check_mendelian_inheritance
       (Some ["B"; "A"]) (Some ["A"; "C"]) (Some ["B"; "C"])).1
  ∧ same_detail
      (check_mendelian_inheritance
         (Some ["A"; "B"]) (Some ["C"; "A"]) (Some ["C"; "B"])).2
      (check_mendelian_inheritance
         (Some ["B"; "A"]) (Some ["A"; "C"]) (Some ["B"; "C"])).2.
Proof.
  apply check_mendelian_inheritance_reordered; apply perm_swap.
Defined.

(** The text itself may differ: the possible genotypes enter the set in
    another order. *)
Example check_reordered_insertion_order :
  (check_mendelian_inheritance
     (Some ["A"; "B"]) (Some ["C"; "A"]) (Some ["C"; "B"])).2
  = ExpectedGot [["A"; "C"]; ["A"; "A"]; ["B"; "C"]; ["A"; "B"]] ["B"; "C"]
  ∧ (check_mendelian_inheritance
       (Some ["B"; "A"]) (Some ["A"; "C"]) (Some ["B"; "C"])).2
    = ExpectedGot [["A"; "B"]; ["B"; "C"]; ["A"; "A"]; ["A"; "C"]] ["B"; "C"].
Proof. split; reflexivity. Qed.

Lemma check_verdict_exchanged (g1 g2 g3 : option Genotype) :
  (check_mendelian_inheritance g2 g1 g3).1
  = (check_mendelian_inheritance g1 g2 g3).1.
Proof.
  unfold check_mendelian_inheritance.
  rewrite (andb_comm (truthy g2) (truthy g1)).
  destruct (negb _); [done|]. simpl.
  apply bool_decide_ext, possible_offspring_swap.
Qed.

Lemma analyze_marker_swap (ml fl ol : gmap MarkerID RawValue) k r :
  analyze_marker fl ml ol k (swap_parents_results r)
  = swap_parents_results <$> analyze_marker ml fl ol k r.
Proof.
  unfold analyze_marker, getitem.
  destruct (ml !! k) as [a|], (fl !! k) as [b|], (ol !! k) as [c|];
    simpl; try done.
  rewrite (andb_comm (truthy (parse_genotype b))).
  destruct (truthy (parse_genotype a) && truthy (parse_genotype b)
            && truthy (parse_genotype c)) eqn:Ht; simpl; [|done].
  apply andb_true_iff in Ht as [[(ga & -> & _)%truthy_Some
    (gb & -> & _)%truthy_Some]%andb_true_iff (gc & -> & _)%truthy_Some].
  pose proof (check_verdict_exchanged (Some ga) (Some gb) (Some gc)) as Hv.
  destruct (check_mendelian_inheritance (Some ga) (Some gb) (Some gc))
    as [c0 d0].
  destruct (check_mendelian_inheritance (Some gb) (Some ga) (Some gc))
    as [c1 d1] eqn:H1.
  simpl in Hv. subst c1.
  assert (Hswap : ∀ d,
    swap_parents {| marker := k; mother := ga; father := gb; offspring := gc;
                    consistent := c0; details := d |}
    = {| marker := k; mother := gb; father := ga; offspring := gc;
         consistent := c0; details := d1 |}).
  { intros d. unfold swap_parents.
    cbn [marker mother father offspring consistent details].
    by rewrite H1. }
  destruct c0; cbn [fmap outcome_fmap]; unfold swap_parents_results;
    cbn [total_common_markers testable_markers consistent_markers
         inconsistent_markers exclusions marker_details confidence_level
         consistency_rate from_option id];
    by rewrite ?fmap_app, ?list_fmap_singleton, ?Hswap.
Qed.

Lemma analyze_markers_swap (ml fl ol : gmap MarkerID RawValue) ms r :
  analyze_markers fl ml ol ms (swap_parents_results r)
  = swap_parents_results <$> analyze_markers ml fl ol ms r.
Proof.
  revert r. induction ms as [|k ms IH]; intros r; simpl; [done|].
  rewrite analyze_marker_swap.
  destruct (analyze_marker ml fl ol k r) as [r'|e]; simpl; [apply IH|done].
Qed.

Lemma common_markers_of_swap md fd od :
  common_markers_of fd md od = common_markers_of md fd od.
Proof.
  unfold common_markers_of. apply set_eq. intros k.
  rewrite !elem_of_intersection. tauto.
Qed.



End Reordering.
